(** * Tripods: Monte-Carlo notebooks, embedded and verified

    A shallow embedding of the two notebooks of the repository:

    - [norm_concentration.ipynb]: the class [RandomVector] and the function
      [square_norm_expectation];
    - the approximate Caratheodory notebook: the stick-breaking construction
      of [coefficients], the target [x], [sample_from_distribution], the
      diameter [diamT] and the loop that tracks [bestVal]/[best]/[samples].

    Python exceptions are values of [exn], computations live in a state and
    error monad over the process-wide bookkeeping ([World]: how many values
    each random primitive has handed out, and the allocator's next object
    identity).  The random source itself is an explicit environment ([Env]):
    every theorem is quantified over it, so it holds for every possible
    sequence of random draws.

    Numbers are kept abstract behind the class [Arith].  Two instances are
    given: IEEE binary64 ([float], the scalar arithmetic of numpy; it makes
    every definition executable, with the reductions [np.sum] and [mean]
    taken from left to right) and the real numbers ([R], exact arithmetic).
    Results that do not depend on the arithmetic are proved once, for every
    instance; identities and bounds that rounding breaks are stated for
    exact arithmetic and say so, next to a run in binary64 that shows the
    rounding; what the loop keeps as its best trial is proved in binary64,
    infinities and NaN included.

    Python integers are [Z]; a numpy array of one dimension is a list.  The
    points of [T] are arrays of doubles; the notebook writes its own four
    points with integer coordinates, for which [diamT_int64] computes the
    diameter in wrapping 64-bit integers, as numpy does. *)

From Stdlib Require Import String ZArith List Bool Arith Lia.
From Stdlib Require Import Reals Lra Psatz.
From Stdlib Require Import Floats DecimalString.
From Stdlib Require DecimalZ.
From Stdlib Require Import Permutation.
Import ListNotations.

Set Implicit Arguments.
Bind Scope string_scope with string.

(** * Exceptions and results *)

Inductive exn : Set :=
| AssertionError
| AttributeError
| ZeroDivisionError
| ValueError
| IndexError.

Inductive result (A : Type) : Type :=
| Ok (a : A)
| Raise (e : exn).

Arguments Ok {A} a.
Arguments Raise {A} e.

(** * Arithmetic *)

(** The scalar operations the notebooks apply to Python and numpy floats.
    [of_Z] is the conversion of a Python [int]; [fltb a b] is [a < b];
    [flt_inf a] is [a < float("inf")]. *)
Class Arith (F : Type) : Type := {
  of_Z : Z -> F;
  fadd : F -> F -> F;
  fsub : F -> F -> F;
  fmul : F -> F -> F;
  fdiv : F -> F -> F;
  fsqrt : F -> F;
  fltb : F -> F -> bool;
  flt_inf : F -> bool
}.

(** IEEE 754 binary64, round to nearest even. *)
#[export] Instance float_arith : Arith float := {
  of_Z z := SF2Prim (binary_normalize prec emax z 0 false);
  fadd := PrimFloat.add;
  fsub := PrimFloat.sub;
  fmul := PrimFloat.mul;
  fdiv := PrimFloat.div;
  fsqrt := PrimFloat.sqrt;
  fltb := PrimFloat.ltb;
  flt_inf a := PrimFloat.ltb a infinity
}.

(** Exact real arithmetic; every real is below infinity. *)
#[export] Instance real_arith : Arith R := {
  of_Z := IZR;
  fadd := Rplus;
  fsub := Rminus;
  fmul := Rmult;
  fdiv := Rdiv;
  fsqrt := R_sqrt.sqrt;
  fltb a b := if Rlt_dec a b then true else false;
  flt_inf _ := true
}.

(** * The random source and the process state *)

(** A numpy [Generator]: its standard normal variates and, for each pair of
    parameters, its Wald variates, in the order in which it produces them. *)
Record Generator (F : Type) : Type := {
  normal_variate : nat -> F;
  wald_variate : F -> F -> nat -> F
}.

(** Everything the code takes from outside.
    - [entropy i]: the generator made by the [i]-th call of
      [np.random.default_rng()];
    - [slot a]: where the hash table of a [frozenset] keeps the object of
      identity [a] (the default hash of an object is its address);
    - [permutation c m]: the array returned by the [c]-th call of
      [np.random.permutation], asked for [m] indices;
    - [unit_double i]: the [i]-th double in [[0,1)] behind [np.random.uniform];
    - [choice j]: the index picked by the [j]-th weighted draw of
      [random.choices]. *)
Record Env (F : Type) : Type := {
  entropy : nat -> Generator F;
  slot : nat -> nat;
  permutation : nat -> Z -> list nat;
  unit_double : nat -> F;
  choice : nat -> nat
}.

Record World : Set := {
  rng_calls : nat;
  next_id : nat;
  perm_calls : nat;
  uniform_calls : nat;
  choice_calls : nat
}.

Definition world0 : World :=
  {| rng_calls := 0; next_id := 0; perm_calls := 0;
     uniform_calls := 0; choice_calls := 0 |}.

(** The counters advance one at a time. *)
Definition tick_rng (w : World) : World :=
  {| rng_calls := S (rng_calls w); next_id := next_id w;
     perm_calls := perm_calls w; uniform_calls := uniform_calls w;
     choice_calls := choice_calls w |}.

Definition tick_id (w : World) : World :=
  {| rng_calls := rng_calls w; next_id := S (next_id w);
     perm_calls := perm_calls w; uniform_calls := uniform_calls w;
     choice_calls := choice_calls w |}.

Definition tick_perm (w : World) : World :=
  {| rng_calls := rng_calls w; next_id := next_id w;
     perm_calls := S (perm_calls w); uniform_calls := uniform_calls w;
     choice_calls := choice_calls w |}.

Definition tick_uniform (w : World) : World :=
  {| rng_calls := rng_calls w; next_id := next_id w;
     perm_calls := perm_calls w; uniform_calls := S (uniform_calls w);
     choice_calls := choice_calls w |}.

Definition tick_choice (w : World) : World :=
  {| rng_calls := rng_calls w; next_id := next_id w;
     perm_calls := perm_calls w; uniform_calls := uniform_calls w;
     choice_calls := S (choice_calls w) |}.

(** * The monad *)

Definition M (A : Type) : Type := World -> result (A * World).

Definition ret {A} (a : A) : M A := fun w => Ok (a, w).

Definition bind {A B} (c : M A) (k : A -> M B) : M B :=
  fun w => match c w with
           | Ok (a, w') => k a w'
           | Raise e => Raise e
           end.

Definition raise {A} (e : exn) : M A := fun _ => Raise e.

Declare Scope py_scope.
Delimit Scope py_scope with py.
Notation "x <- c ;; k" := (bind c (fun x => k))
  (at level 100, c at next level, right associativity) : py_scope.
Notation "' p <- c ;; k" := (bind c (fun x => match x with p => k end))
  (at level 100, p pattern, c at next level, right associativity) : py_scope.
Notation "c ;;; k" := (bind c (fun _ => k))
  (at level 100, right associativity) : py_scope.
Open Scope py_scope.

(** [assert b] *)
Definition assert (b : bool) : M unit :=
  if b then ret tt else raise AssertionError.

(** Lift a pure partial result into the monad. *)
Definition lift {A} (r : result A) : M A :=
  fun w => match r with Ok a => Ok (a, w) | Raise e => Raise e end.

(** [for a in l: st = body a st] *)
Fixpoint for_each {A S} (l : list A) (body : A -> S -> M S) (st : S) : M S :=
  match l with
  | [] => ret st
  | a :: l' => st' <- body a st ;; for_each l' body st'
  end.

(** [[f() for _ in range(n)]], the calls made in order. *)
Fixpoint repeat_call {A} (n : nat) (c : M A) : M (list A) :=
  match n with
  | O => ret []
  | S n' => a <- c ;; l <- repeat_call n' c ;; ret (a :: l)
  end.

(** [[f(a) for a in l]] *)
Fixpoint map_m {A B} (f : A -> M B) (l : list A) : M (list B) :=
  match l with
  | [] => ret []
  | a :: l' => b <- f a ;; bs <- map_m f l' ;; ret (b :: bs)
  end.

(** [range(m)] for a Python [int]: empty when [m <= 0]. *)
Definition range (m : Z) : list nat := seq 0 (Z.to_nat m).

(** * Python numbers *)

(** A value of numpy's [int64]: a result out of range wraps around, without
    a warning. *)
Definition wrap64 (z : Z) : Z :=
  ((z + 9223372036854775808) mod 18446744073709551616
   - 9223372036854775808)%Z.

(** The builtin [sum] starts from the integer [0], so its result is an [int]
    on an empty sequence and a numpy float otherwise. *)
Inductive pynum (F : Type) : Type :=
| PyInt (z : Z)
| NpFloat (x : F).

Arguments PyInt {F} z.
Arguments NpFloat {F} x.

Section Numbers.
Context {F : Type} {AF : Arith F}.

Definition to_float (a : pynum F) : F :=
  match a with PyInt z => of_Z z | NpFloat x => x end.

(** [a + b] *)
Definition py_add (a b : pynum F) : pynum F :=
  match a, b with
  | PyInt x, PyInt y => PyInt (x + y)
  | _, _ => NpFloat (fadd (to_float a) (to_float b))
  end.

(** [sum(l)] *)
Definition py_sum (l : list (pynum F)) : pynum F :=
  fold_left py_add l (PyInt 0).

(** [a / m] for a Python [int] [m]: two integers raise
    [ZeroDivisionError] on a zero divisor, a numpy float does not. *)
Definition py_truediv (a : pynum F) (m : Z) : result F :=
  match a with
  | PyInt z => if (m =? 0)%Z then Raise ZeroDivisionError
               else Ok (fdiv (of_Z z) (of_Z m))
  | NpFloat x => Ok (fdiv x (of_Z m))
  end.

(** [t**2] *)
Definition pow2 (t : F) : F := fmul t t.

(** [np.sum(a)] and [a.mean()] of a one-dimensional array. *)
Definition np_sum (a : list F) : F := fold_left fadd a (of_Z 0).

Definition np_mean (a : list F) : F :=
  fdiv (np_sum a) (of_Z (Z.of_nat (length a))).

(** [op] applied componentwise. *)
Definition zip_with (op : F -> F -> F) (u v : list F) : list F :=
  map (fun p => op (fst p) (snd p)) (combine u v).

(** Binary operations on one-dimensional arrays, with numpy's
    broadcasting: equal lengths work componentwise, an array of length one
    is stretched, anything else is a [ValueError]. *)
Definition broadcast (op : F -> F -> F) (u v : list F) : result (list F) :=
  if (length u =? length v)%nat then Ok (zip_with op u v)
  else match u, v with
       | [a], _ => Ok (map (op a) v)
       | _, [b] => Ok (map (fun a => op a b) u)
       | _, _ => Raise ValueError
       end.

(** [np.zeros(n)] *)
Definition np_zeros (n : nat) : list F := repeat (of_Z 0) n.
End Numbers.

(** * The class [RandomVector] *)

Module RandomVector.

(** An instance.  An attribute that was never assigned is [None]; [id] is
    the identity of the object. *)
Record t (F : Type) : Type := {
  id : nat;
  dim : option Z;
  components : option (list F)
}.

Section Methods.
Context {F : Type} {AF : Arith F} (env : Env F).

(** Allocation of a fresh instance, before [__init__] runs. *)
Definition new : M (t F) :=
  fun w => Ok ({| id := next_id w; dim := None; components := None |},
               tick_id w).

(** [np.random.default_rng()] *)
Definition default_rng : M (Generator F) :=
  fun w => Ok (entropy env (rng_calls w), tick_rng w).

(** [rng.standard_normal(size)] and [rng.wald(mean, scale, size)] *)
Definition standard_normal (rng : Generator F) (size : Z) : list F :=
  map (normal_variate rng) (range size).

Definition wald (rng : Generator F) (mean scale : F) (size : Z) : list F :=
  map (wald_variate rng mean scale) (range size).

(** Reading [self.components]. *)
Definition get_components (self : t F) : M (list F) :=
  match components self with
  | Some c => ret c
  | None => raise AttributeError
  end.

Definition set_dim (self : t F) (d : Z) : t F :=
  {| id := id self; dim := Some d; components := components self |}.

Definition set_components (self : t F) (c : list F) : t F :=
  {| id := id self; dim := dim self; components := Some c |}.

(** [__init__(self, dim, distribution, mean, variance)].  [dim] is a
    Python [int], so [type(dim) is int] holds by typing. *)
Definition __init__ (self : t F) (dim : Z) (distribution : string)
           (mean variance : F) : M (t F) :=
  assert (0 <? dim)%Z ;;;
  let self := set_dim self dim in
  rng <- default_rng ;;
  let self := if (distribution =? "standard_normal")%string
              then set_components self (standard_normal rng dim)
              else self in
  let self := if (distribution =? "wald")%string
              then set_components self (wald rng (of_Z 1) (of_Z 1) dim)
              else self in
  c <- get_components self ;;
  ret (set_components self
         (map (fun raw => fadd mean (fmul (fsqrt variance) raw)) c)).

(** The call [RandomVector(dim, distribution, mean, variance)]. *)
Definition create (dim : Z) (distribution : string) (mean variance : F)
  : M (t F) :=
  self <- new ;; __init__ self dim distribution mean variance.

Definition show_Z (z : Z) : string := NilEmpty.string_of_int (Z.to_int z).

(** [__repr__(self)] *)
Definition __repr__ (self : t F) : M string :=
  match dim self with
  | Some d =>
      ret ("a " ++ show_Z d ++ "-dimensional random vector (id: "
              ++ show_Z (Z.of_nat (id self)) ++ ")")%string
  | None => raise AttributeError
  end.

(** [mean(self)] *)
Definition mean (self : t F) : M F :=
  c <- get_components self ;; ret (np_mean c).

(** [norm_squared(self)] *)
Definition norm_squared (self : t F) : M (pynum F) :=
  c <- get_components self ;;
  ret (py_sum (map (fun t => NpFloat (pow2 t)) c)).

End Methods.
End RandomVector.

(** * [square_norm_expectation] *)

Section Expectation.
Context {F : Type} {AF : Arith F} (env : Env F).

(** A [frozenset] of instances.  The class defines neither [__eq__] nor
    [__hash__], so members are compared by identity and kept where their
    address sends them: the set is the list of its members in table order,
    which is also the order of iteration. *)
Fixpoint place (v : RandomVector.t F) (s : list (RandomVector.t F))
  : list (RandomVector.t F) :=
  match s with
  | [] => [v]
  | u :: s' =>
      if (slot env (RandomVector.id v) <? slot env (RandomVector.id u))%nat
      then v :: s
      else u :: place v s'
  end.

Definition frozenset_add (s : list (RandomVector.t F)) (v : RandomVector.t F)
  : list (RandomVector.t F) :=
  if existsb (fun u => (RandomVector.id u =? RandomVector.id v)%nat) s
  then s
  else place v s.

Definition frozenset (l : list (RandomVector.t F)) : list (RandomVector.t F) :=
  fold_left frozenset_add l [].

Definition square_norm_expectation (m dim : Z) (distribution : string)
           (mean variance : F) : M F :=
  made <- repeat_call (Z.to_nat m)
            (RandomVector.create env dim distribution mean variance) ;;
  let vectors := frozenset made in
  norms_squared <- map_m RandomVector.norm_squared vectors ;;
  lift (py_truediv (py_sum norms_squared) m).

End Expectation.

(** * The approximate Caratheodory notebook *)

(** [float("inf")] or a float. *)
Inductive pyfloat (F : Type) : Type :=
| PosInf
| Finite (v : F).

Arguments PosInf {F}.
Arguments Finite {F} v.

Module Caratheodory.

Section Cells.
Context {F : Type} {AF : Arith F} (env : Env F).

(** A point of [T]: a numpy array of its coordinates. *)
Local Abbreviation point := (list F) (only parsing).

(** [l[i]] and [l[i] = v]; [perm[-1]]. *)
Definition getitem {A} (l : list A) (i : nat) : result A :=
  match nth_error l i with
  | Some a => Ok a
  | None => Raise IndexError
  end.

Fixpoint setitem {A} (l : list A) (i : nat) (v : A) : result (list A) :=
  match l, i with
  | [], _ => Raise IndexError
  | _ :: l', O => Ok (v :: l')
  | a :: l', S i' =>
      match setitem l' i' v with
      | Ok r => Ok (a :: r)
      | Raise e => Raise e
      end
  end.

Definition last_item {A} (l : list A) : result A :=
  match rev l with
  | a :: _ => Ok a
  | [] => Raise IndexError
  end.

(** [np.random.permutation(m)] *)
Definition np_random_permutation (m : Z) : M (list nat) :=
  fun w => Ok (permutation env (perm_calls w) m, tick_perm w).

(** [np.random.uniform(low, high)]: [low + (high - low) * u] for the
    next double [u] of [[0,1)]. *)
Definition np_random_uniform (low high : F) : M F :=
  fun w => Ok (fadd low (fmul (fsub high low)
                              (unit_double env (uniform_calls w))),
               tick_uniform w).

(** One weighted draw from [population]. *)
Definition draw (population : list point) : M point :=
  fun w => match getitem population (choice env (choice_calls w)) with
           | Ok p => Ok (p, tick_choice w)
           | Raise e => Raise e
           end.

(** [rand.choices(population, weights = weights, k = k)]: the library
    refuses weights that are not one per member; which members come out is
    the random source's business. *)
Definition rand_choices (population : list point) (weights : list F)
           (k : Z) : M (list point) :=
  if (length weights =? length population)%nat
  then repeat_call (Z.to_nat k) (draw population)
  else raise ValueError.

(** The cell that builds [coefficients] for [m] points.  The list starts
    as [[0]*m]; the integer [0] is stored as the float it becomes in every
    later operation. *)
Definition coefficients (m : Z) : M (list F) :=
  let coefficients := repeat (of_Z 0) (Z.to_nat m) in
  perm <- np_random_permutation m ;;
  let accum := of_Z 1 in
  ' (coefficients, accum) <-
    for_each (removelast perm)
      (fun i st =>
         let '(coefficients, accum) := st in
         u <- np_random_uniform (of_Z 0) accum ;;
         coefficients <- lift (setitem coefficients i u) ;;
         c <- lift (getitem coefficients i) ;;
         ret (coefficients, fsub accum c))
      (coefficients, accum) ;;
  i <- lift (last_item perm) ;;
  lift (setitem coefficients i accum).

(** The cell that builds the target [x] in dimension [n]. *)
Definition x (n : nat) (T : list point) (coefficients : list F)
  : M point :=
  for_each (range (Z.of_nat (length T)))
    (fun i x =>
       c <- lift (getitem coefficients i) ;;
       Ti <- lift (getitem T i) ;;
       lift (broadcast fadd x (map (fmul c) Ti)))
    (np_zeros n).

(** [sample_from_distribution()], with its globals as arguments. *)
Definition sample_from_distribution (T : list point)
           (coefficients : list F) (x : point) (k : Z)
  : M (F * list point) :=
  vectors <- rand_choices T coefficients k ;;
  T0 <- lift (getitem T 0) ;;
  vec_sum <- for_each vectors
               (fun vec vec_sum => lift (broadcast fadd vec_sum vec))
               (np_zeros (length T0)) ;;
  d <- lift (broadcast fsub x (map (fun s => fdiv s (of_Z k)) vec_sum)) ;;
  let distance := np_sum (map pow2 d) in
  ret (distance, vectors).

(** The cell that computes [diamT], for points given as arrays of
    doubles. *)
Definition diamT (T : list point) : M F :=
  for_each (range (Z.of_nat (length T)))
    (fun i diamT =>
       for_each (seq (i + 1) (length T - (i + 1)))
         (fun j diamT =>
            Ti <- lift (getitem T i) ;;
            Tj <- lift (getitem T j) ;;
            d <- lift (broadcast fsub Ti Tj) ;;
            let d_xixj := fsqrt (np_sum (map pow2 d)) in
            ret (if fltb diamT d_xixj then d_xixj else diamT))
         diamT)
    (of_Z 0).

(** The same cell when the points are arrays of integers, which is how the
    notebook writes its own [T]: the difference, its square and the sum of
    the squares are computed in [int64], and [np.sqrt] converts the sum to a
    double.  (The cell that builds [x] and [sample_from_distribution]
    multiply or add such arrays with doubles, which converts every
    coordinate first: there an integer [T] behaves as [map (map of_Z) T].) *)
Definition diamT_int64 (T : list (list Z)) : M F :=
  for_each (range (Z.of_nat (length T)))
    (fun i diamT =>
       for_each (seq (i + 1) (length T - (i + 1)))
         (fun j diamT =>
            Ti <- lift (getitem T i) ;;
            Tj <- lift (getitem T j) ;;
            d <- lift (broadcast (fun a b => wrap64 (a - b)) Ti Tj) ;;
            let total :=
              fold_left (fun a b => wrap64 (a + b))
                        (map (fun t => wrap64 (t * t)) d) 0%Z in
            let d_xixj := fsqrt (of_Z total) in
            ret (if fltb diamT d_xixj then d_xixj else diamT))
         diamT)
    (of_Z 0).

(** The variables of the trial loop. *)
Record Loop : Type := {
  samples : list F;
  bestVal : pyfloat F;
  best : option (list point)
}.

Definition loop0 : Loop :=
  {| samples := []; bestVal := PosInf; best := None |}.

(** [sample < bestVal] *)
Definition lt_best (sample : F) (bestVal : pyfloat F) : bool :=
  match bestVal with
  | PosInf => flt_inf sample
  | Finite b => fltb sample b
  end.

(** What one iteration does with the result of its trial. *)
Definition record_trial (st : Loop) (sample : F) (vectors : list point)
  : Loop :=
  let st := if lt_best sample (bestVal st)
            then {| samples := samples st;
                    bestVal := Finite sample;
                    best := Some vectors |}
            else st in
  {| samples := samples st ++ [sample];
     bestVal := bestVal st;
     best := best st |}.

(** The loop [for i in range(numSamples)]. *)
Definition trials (T : list point) (coefficients : list F) (x : point)
           (k numSamples : Z) : M Loop :=
  for_each (range numSamples)
    (fun _ st =>
       ' (sample, vectors) <- sample_from_distribution T coefficients x k ;;
       ret (record_trial st sample vectors))
    loop0.

End Cells.
End Caratheodory.

(** * Method calls on an instance *)

(** The public operations of a [RandomVector] after construction.  A method
    receives [self] by reference; [invoke] returns the instance as the call
    leaves it next to the value returned. *)
Inductive method : Set := Repr | Mean | NormSquared.

Inductive value (F : Type) : Type :=
| VStr (s : string)
| VFloat (v : F)
| VNum (n : pynum F).

Arguments VStr {F} s.
Arguments VFloat {F} v.
Arguments VNum {F} n.

Section Invoke.
Context {F : Type} {AF : Arith F}.

Definition invoke (meth : method) (self : RandomVector.t F)
  : M (value F * RandomVector.t F) :=
  match meth with
  | Repr => s <- RandomVector.__repr__ self ;; ret (VStr s, self)
  | Mean => v <- RandomVector.mean self ;; ret (VFloat v, self)
  | NormSquared => n <- RandomVector.norm_squared self ;; ret (VNum n, self)
  end.

(** A sequence of calls on the same instance. *)
Fixpoint invoke_all (l : list method) (self : RandomVector.t F)
  : M (RandomVector.t F) :=
  match l with
  | [] => ret self
  | meth :: l' => ' (_, self') <- invoke meth self ;; invoke_all l' self'
  end.

(** [len(components) == dimension] *)
Definition len_invariant (v : RandomVector.t F) : Prop :=
  exists d c, RandomVector.dim v = Some d /\
              RandomVector.components v = Some c /\
              Z.of_nat (length c) = d.

(** The distribution names [__init__] knows. *)
Definition recognized (distribution : string) : bool :=
  ((distribution =? "standard_normal") || (distribution =? "wald"))%string.

(** The raw samples [__init__] asks its generator for. *)
Definition raw_samples (rng : Generator F) (distribution : string) (dim : Z)
  : list F :=
  if (distribution =? "standard_normal")%string
  then RandomVector.standard_normal rng dim
  else RandomVector.wald rng (of_Z 1) (of_Z 1) dim.

(** [y = mean + sqrt(variance) * raw] *)
Definition affine (mean variance raw : F) : F :=
  fadd mean (fmul (fsqrt variance) raw).
(** The instance a construction started in world [w] is expected to return:
    the next identity, the dimension asked for, and the raw samples of the
    next generator after the affine transform. *)
Definition built (env : Env F) (w : World) (dim : Z) (name : string)
           (mean variance : F) : RandomVector.t F :=
  {| RandomVector.id := next_id w;
     RandomVector.dim := Some dim;
     RandomVector.components :=
       Some (map (affine mean variance)
                 (raw_samples (entropy env (rng_calls w)) name dim)) |}.

(** The world after [i] constructions, and the instances the first [n]
    constructions started in world [w] are expected to return, in the order
    in which they are made. *)
Definition advance (w : World) (i : nat) : World :=
  Nat.iter i (fun w => tick_rng (tick_id w)) w.

Definition drawn (env : Env F) (w : World) (n : nat) (dim : Z) (name : string)
           (mean variance : F) : list (RandomVector.t F) :=
  map (fun i => built env (advance w i) dim name mean variance) (seq 0 n).
End Invoke.

(** * A concrete random source, for running the code in binary64 *)

Definition demo_generator : Generator float :=
  {| normal_variate := fun i => of_Z (Z.of_nat i - 1);
     wald_variate := fun a b i => (a + b + of_Z (Z.of_nat i))%float |}.

Definition demo_env : Env float :=
  {| entropy := fun _ => demo_generator;
     slot := fun a => (7 - a)%nat;
     permutation := fun _ m => rev (range m);
     unit_double := fun _ => 0.25%float;
     choice := fun j => (j mod 4)%nat |}.

(** The notebook's four points, a target and weights, in binary64. *)
Definition float_T : list (list float) :=
  [[1; 0; 0]; [0; 1; 0]; [0; 0; 1]; [0; 0; 0]]%float.

Definition float_weights : list float := [0.25; 0.25; 0.25; 0.25]%float.

Definition float_x : list float := [0.25; 0.25; 0.25]%float.

(** A random source with other weighted draws. *)
Definition with_choice {F : Type} (env : Env F) (c : nat -> nat) : Env F :=
  {| entropy := entropy env;
     slot := slot env;
     permutation := permutation env;
     unit_double := unit_double env;
     choice := c |}.

(** Two points of one coordinate that are far apart, [2**700] and
    [-2**700], with equal weights; their weighted mean is [0]. *)
Definition far_T : list (list float) := [[0x1p700]; [-0x1p700]]%float.

Definition half_weights : list float := [0.5; 0.5]%float.







(** The same random source with another placement of objects in hash
    tables. *)
Definition with_slot {F : Type} (env : Env F) (slot' : nat -> nat) : Env F :=
  {| entropy := entropy env;
     slot := slot';
     permutation := permutation env;
     unit_double := unit_double env;
     choice := choice env |}.

(** * Vocabulary of the statements *)

(** [l] with its entry [i] replaced by [v]: what [l[i] = v] leaves behind
    when [i] is in range. *)
Fixpoint upd {A} (l : list A) (i : nat) (v : A) : list A :=
  match l, i with
  | [], _ => []
  | _ :: l', O => v :: l'
  | a :: l', S i' => a :: upd l' i' v
  end.

(** Strings made of decimal digits only. *)
Definition is_digit (c : Ascii.ascii) : bool :=
  ((48 <=? Ascii.nat_of_ascii c) && (Ascii.nat_of_ascii c <=? 57))%nat.

Fixpoint all_digits (s : string) : bool :=
  match s with
  | EmptyString => true
  | String c s' => is_digit c && all_digits s'
  end.

Section TrialVocabulary.
Context {F : Type} {AF : Arith F} (env : Env F).

(** The world after [n] more weighted draws, the indices those draws pick,
    and the points of [T] they stand for. *)
Definition choice_advance (w : World) (n : nat) : World :=
  Nat.iter n tick_choice w.

Definition outcome_at (w : World) (n : nat) : list nat :=
  map (fun j => choice env (choice_calls w + j)) (seq 0 n).

Definition picked (T : list (list F)) (outcome : list nat) : list (list F) :=
  map (fun i => nth i T []) outcome.

(** The distance [sample_from_distribution] computes from the points it
    drew. *)
Definition distance_to (x : list F) (k : Z) (n : nat)
           (vectors : list (list F)) : F :=
  np_sum (map pow2
            (zip_with fsub x
               (map (fun s => fdiv s (of_Z k))
                    (fold_left (zip_with fadd) vectors (np_zeros n))))).

(** What [sample_from_distribution()] returns when called in world [w]. *)
Definition trial_result (T : list (list F)) (weights x : list F) (k : Z)
           (w : World) : F * list (list F) :=
  match Caratheodory.sample_from_distribution env T weights x k w with
  | Ok (r, _) => r
  | Raise _ => (of_Z 0, [])
  end.

(** The results of the first [N] trials of a loop started in world [w]:
    trial [i] begins after the [i * k] draws of the trials before it. *)
Definition trial_results (T : list (list F)) (weights x : list F) (k : Z)
           (w : World) (N : nat) : list (F * list (list F)) :=
  map (fun i => trial_result T weights x k
                             (choice_advance w (i * Z.to_nat k)))
      (seq 0 N).

(** The loop variables after recording [results] one after the other. *)
Definition record_all (results : list (F * list (list F)))
           (st : Caratheodory.Loop (F := F)) : Caratheodory.Loop (F := F) :=
  fold_left (fun st r => Caratheodory.record_trial st (fst r) (snd r))
            results st.
End TrialVocabulary.

Section RealVocabulary.
Local Open Scope R_scope.

(** [sample < bestVal], over the reals. *)
Definition below (sample : R) (bestVal : pyfloat R) : Prop :=
  match bestVal with
  | PosInf => True
  | Finite b => sample < b
  end.

(** [a <= b] for values of [bestVal], infinity being the largest. *)
Definition no_higher (a b : pyfloat R) : Prop :=
  match a, b with
  | _, PosInf => True
  | PosInf, Finite _ => False
  | Finite x, Finite y => x <= y
  end.

(** The weighted draw can return index [i]: it is an index of the weights
    and its weight is positive. *)
Definition can_draw (weights : list R) (i : nat) : Prop :=
  (i < length weights)%nat /\ 0 < nth i weights 0.

(** The four points as the notebook writes them, with integer
    coordinates. *)
Definition int_T : list (list Z) :=
  [[1; 0; 0]; [0; 1; 0]; [0; 0; 1]; [0; 0; 0]]%Z.

(** The four points of the notebook, their centre, and equal weights. *)
Definition notebook_T : list (list R) :=
  [[1; 0; 0]; [0; 1; 0]; [0; 0; 1]; [0; 0; 0]].

Definition quarter_weights : list R := [1 / 4; 1 / 4; 1 / 4; 1 / 4].

Definition centre : list R := [1 / 4; 1 / 4; 1 / 4].

(** A random source for the stick-breaking cell: the permutation comes out
    reversed and every double is one half. *)
Definition half_env : Env R :=
  {| entropy := fun _ => {| normal_variate := fun _ => 0;
                            wald_variate := fun _ _ _ => 0 |};
     slot := fun a => a;
     permutation := fun _ m => rev (range m);
     unit_double := fun _ => 1 / 2;
     choice := fun j => (j mod 4)%nat |}.

(** The sum of [f 0], ..., [f (n - 1)]. *)
Fixpoint big_sum (f : nat -> R) (n : nat) : R :=
  match n with
  | O => 0
  | S n' => big_sum f n' + f n'
  end.

(** The sum of a list of reals. *)
Definition Rsum (l : list R) : R := fold_right Rplus 0 l.


(** The squared Euclidean distance between two points. *)
Definition sq_dist (u v : list R) : R :=
  Rsum (map (fun p => (fst p - snd p) * (fst p - snd p)) (combine u v)).

(** The squared norm of an instance, as a real number. *)
Definition norm_squared_of (v : RandomVector.t R) : R :=
  match RandomVector.components v with
  | Some c => Rsum (map (fun t => t * t) c)
  | None => 0
  end.

(** A random source whose [g]-th generator produces the variates [g],
    [g + 1], ... *)
Definition ramp_env : Env R :=
  {| entropy := fun g => {| normal_variate := fun i => INR (g + i);
                            wald_variate := fun a b i => a + b + INR i |};
     slot := fun a => a;
     permutation := fun _ m => range m;
     unit_double := fun _ => 1 / 2;
     choice := fun j => (j mod 4)%nat |}.

(** A random source whose weighted draws come out as [outcome]. *)
Definition tape_env (outcome : list nat) : Env R :=
  {| entropy := fun _ => {| normal_variate := fun _ => 0;
                            wald_variate := fun _ _ _ => 0 |};
     slot := fun a => a;
     permutation := fun _ m => range m;
     unit_double := fun _ => 0;
     choice := fun j => nth j outcome O |}.


End RealVocabulary.

Unset Implicit Arguments.

(** * Facts about the monad *)

Lemma bind_ok {A B} (c : M A) (k : A -> M B) w a w' :
  c w = Ok (a, w') -> bind c k w = k a w'.
Proof. intros E. unfold bind. now rewrite E. Qed.

Lemma bind_raise {A B} (c : M A) (k : A -> M B) w e :
  c w = Raise e -> bind c k w = Raise e.
Proof. intros E. unfold bind. now rewrite E. Qed.

Lemma range_length m : (0 <= m)%Z -> Z.of_nat (length (range m)) = m.
Proof. intros Hm. unfold range. rewrite length_seq. lia. Qed.

(** * The constructor of [RandomVector] *)

Section Constructor.
Context {F : Type} {AF : Arith F} (env : Env F).

Lemma recognized_cases name :
  recognized name = true ->
  name = "standard_normal"%string \/ name = "wald"%string.
Proof.
  unfold recognized. intros H. apply orb_true_iff in H.
  destruct H as [H | H]; apply String.eqb_eq in H; auto.
Qed.

Lemma raw_samples_length (rng : Generator F) name dim :
  (0 <= dim)%Z -> Z.of_nat (length (raw_samples rng name dim)) = dim.
Proof.
  intros Hd.
  unfold raw_samples, RandomVector.standard_normal, RandomVector.wald.
  destruct (name =? "standard_normal")%string;
    rewrite length_map; now apply range_length.
Qed.

Lemma create_recognized dim name mean variance w :
  (0 < dim)%Z -> recognized name = true ->
  RandomVector.create env dim name mean variance w
  = Ok (built env w dim name mean variance, tick_rng (tick_id w)).
Proof.
  intros Hd Hn.
  unfold RandomVector.create, RandomVector.__init__, RandomVector.new.
  unfold bind at 1. unfold bind at 1.
  apply Z.ltb_lt in Hd. rewrite Hd. cbn [assert ret].
  unfold bind at 1. cbn [RandomVector.default_rng].
  unfold built, raw_samples.
  destruct (recognized_cases _ Hn) as [-> | ->]; reflexivity.
Qed.

Lemma create_unrecognized dim name mean variance w :
  (0 < dim)%Z -> recognized name = false ->
  RandomVector.create env dim name mean variance w = Raise AttributeError.
Proof.
  intros Hd Hn.
  unfold RandomVector.create, RandomVector.__init__, RandomVector.new.
  unfold bind at 1. unfold bind at 1.
  apply Z.ltb_lt in Hd. rewrite Hd. cbn [assert ret].
  unfold bind at 1. cbn [RandomVector.default_rng].
  unfold recognized in Hn. apply orb_false_iff in Hn. destruct Hn as [H1 H2].
  rewrite H1, H2. reflexivity.
Qed.

Lemma built_invariant w dim name mean variance :
  (0 < dim)%Z -> len_invariant (built env w dim name mean variance).
Proof.
  intros Hd. exists dim. eexists. split; [reflexivity|]. split; [reflexivity|].
  rewrite length_map. apply raw_samples_length. lia.
Qed.

Lemma invoke_unchanged meth (v : RandomVector.t F) w :
  len_invariant v -> exists r, invoke meth v w = Ok ((r, v), w).
Proof.
  intros (d & c & Hdim & Hc & _).
  destruct meth; unfold invoke, RandomVector.__repr__, RandomVector.mean,
    RandomVector.norm_squared, RandomVector.get_components, bind, ret;
    rewrite ?Hdim, ?Hc; eexists; reflexivity.
Qed.

Lemma invoke_all_unchanged l (v : RandomVector.t F) w :
  len_invariant v -> invoke_all l v w = Ok (v, w).
Proof.
  intros Hv. induction l as [|meth l IH]; [reflexivity|].
  cbn [invoke_all]. destruct (invoke_unchanged meth v w Hv) as [r Hr].
  unfold bind at 1. rewrite Hr. exact IH.
Qed.

End Constructor.

(** * Claims about the constructor *)

Section ConstructorClaims.
Context {F : Type} {AF : Arith F} (env : Env F).

(** C1, as the code has it: with [dim > 0] and a distribution name that is
    neither ["standard_normal"] nor ["wald"], the constructor does not
    complete.  Neither branch assigns [self.components], so the affine
    transform on the last line of [__init__] reads an attribute that does not
    exist and the call raises [AttributeError], for any mean and variance. *)
Theorem unrecognized_distribution_raises
        (dim : Z) (name : string) (mean variance : F) (w : World) :
  (0 < dim)%Z ->
  recognized name = false ->
  RandomVector.create env dim name mean variance w = Raise AttributeError.
Proof.
  intros Hd Hn. now apply create_unrecognized.
Qed.

(** C6: for [dim > 0] and a recognized name the constructor returns an
    instance whose [dim] is the one asked for and whose [components] has
    exactly [dim] entries; every sequence of method calls on it succeeds and
    returns the very same instance, so the invariant keeps holding. *)
Theorem components_length_invariant
        (dim : Z) (name : string) (mean variance : F) (w : World) :
  (0 < dim)%Z ->
  recognized name = true ->
  exists v w',
    RandomVector.create env dim name mean variance w = Ok (v, w') /\
    RandomVector.dim v = Some dim /\
    (exists c, RandomVector.components v = Some c /\
               Z.of_nat (length c) = dim) /\
    len_invariant v /\
    forall calls w1, invoke_all calls v w1 = Ok (v, w1).
Proof.
  intros Hd Hn. do 2 eexists. split; [now apply create_recognized|].
  pose proof (built_invariant env w dim name mean variance Hd) as Hinv.
  split; [reflexivity|]. split.
  - eexists. split; [reflexivity|]. rewrite length_map.
    apply raw_samples_length. lia.
  - split; [exact Hinv|]. intros calls w1. now apply invoke_all_unchanged.
Qed.

(** C7: for [dim > 0] and a recognized name the components are the [dim] raw
    samples of a fresh generator (standard normal variates, or Wald variates
    with both parameters equal to 1), each sent through
    [y = mean + sqrt(variance) * raw].  This holds for every variance, the
    non-negative ones in particular. *)
Theorem components_are_affine_raw_samples
        (dim : Z) (name : string) (mean variance : F) (w : World) :
  (0 < dim)%Z ->
  recognized name = true ->
  let rng := entropy env (rng_calls w) in
  exists v w' raw,
    RandomVector.create env dim name mean variance w = Ok (v, w') /\
    (name = "standard_normal"%string ->
     raw = RandomVector.standard_normal rng dim) /\
    (name = "wald"%string ->
     raw = RandomVector.wald rng (of_Z 1) (of_Z 1) dim) /\
    Z.of_nat (length raw) = dim /\
    RandomVector.components v
    = Some (map (fun r => fadd mean (fmul (fsqrt variance) r)) raw).
Proof.
  intros Hd Hn rng.
  exists (built env w dim name mean variance), (tick_rng (tick_id w)),
    (raw_samples rng name dim).
  split; [now apply create_recognized|].
  split; [intros ->; reflexivity|].
  split; [intros ->; reflexivity|].
  split; [apply raw_samples_length; lia | reflexivity].
Qed.

End ConstructorClaims.

(** ** Negative variance, in binary64 *)

Lemma sqrt_negative_nan (v : float) :
  (v <? 0)%float = true -> Prim2SF (PrimFloat.sqrt v) = S754_nan.
Proof.
  intros H. rewrite FloatAxioms.ltb_spec in H. rewrite FloatAxioms.sqrt_spec.
  destruct (Prim2SF v) as [s| [|] | | [|] m e];
    try reflexivity; try discriminate.
Qed.

Lemma mul_nan_l (a b : float) :
  Prim2SF a = S754_nan -> Prim2SF (a * b)%float = S754_nan.
Proof.
  intros H. rewrite FloatAxioms.mul_spec, H. destruct (Prim2SF b); reflexivity.
Qed.

Lemma add_nan_r (a b : float) :
  Prim2SF b = S754_nan -> Prim2SF (a + b)%float = S754_nan.
Proof.
  intros H. rewrite FloatAxioms.add_spec, H. destruct (Prim2SF a); reflexivity.
Qed.

Lemma is_nan_of_spec (a : float) : Prim2SF a = S754_nan -> is_nan a = true.
Proof.
  intros H. unfold is_nan. rewrite FloatAxioms.eqb_spec, H. reflexivity.
Qed.

Lemma affine_negative_variance (mean variance raw : float) :
  (variance <? 0)%float = true -> is_nan (affine mean variance raw) = true.
Proof.
  intros H. apply is_nan_of_spec. unfold affine.
  cbn [fadd fmul fsqrt float_arith].
  apply add_nan_r, mul_nan_l, sqrt_negative_nan, H.
Qed.

(** C8, as the code has it: the constructor never looks at the sign of
    [variance].  With [dim > 0], a recognized name and a negative variance the
    call completes and returns [dim] components; [np.sqrt] of a negative
    number is NaN, so every component is NaN. *)
Theorem negative_variance_completes_with_nan
        (env : Env float) (dim : Z) (name : string) (mean variance : float)
        (w : World) :
  (0 < dim)%Z ->
  recognized name = true ->
  (variance <? 0)%float = true ->
  exists v w' c,
    RandomVector.create env dim name mean variance w = Ok (v, w') /\
    RandomVector.components v = Some c /\
    Z.of_nat (length c) = dim /\
    Forall (fun y => is_nan y = true) c.
Proof.
  intros Hd Hn Hv. do 3 eexists.
  split; [now apply create_recognized|].
  split; [reflexivity|]. split.
  - rewrite length_map. apply raw_samples_length. lia.
  - apply Forall_map, Forall_forall. intros raw _.
    now apply affine_negative_variance.
Qed.

(** ** The constructor run on concrete inputs *)

(** C1 as stated fails: [RandomVector(3, "cauchy", 0, 1)] returns no instance
    at all, with unset or empty components or otherwise. *)
Lemma unrecognized_distribution_not_silent :
  RandomVector.create demo_env 3 "cauchy" 0%float 1%float world0
  = Raise AttributeError /\
  ~ (exists v w',
        RandomVector.create demo_env 3 "cauchy" 0%float 1%float world0
        = Ok (v, w') /\
        (RandomVector.components v = None \/
         RandomVector.components v = Some [])).
Proof.
  split; [reflexivity|].
  intros (v & w' & H & _). vm_compute in H. discriminate H.
Qed.

Lemma unrecognized_distribution_raises_witness :
  (0 < 3)%Z /\ recognized "cauchy" = false /\
  RandomVector.create demo_env 3 "cauchy" 0%float 1%float world0
  = Raise AttributeError.
Proof.
  split; [lia|]. split; [reflexivity|].
  apply (unrecognized_distribution_raises demo_env 3 "cauchy"%string
           0%float 1%float world0); [lia | reflexivity].
Defined.

Lemma components_length_invariant_witness :
  (0 < 3)%Z /\ recognized "wald" = true /\
  exists v w',
    RandomVector.create demo_env 3 "wald" 10%float 4%float world0
    = Ok (v, w') /\
    RandomVector.dim v = Some 3%Z /\
    (exists c, RandomVector.components v = Some c /\
               Z.of_nat (length c) = 3%Z) /\
    len_invariant v /\
    forall calls w1, invoke_all calls v w1 = Ok (v, w1).
Proof.
  split; [lia|]. split; [reflexivity|].
  apply (components_length_invariant demo_env 3 "wald"%string 10%float 4%float
           world0); [lia | reflexivity].
Defined.

Lemma components_are_affine_raw_samples_witness :
  (0 < 3)%Z /\ recognized "standard_normal" = true /\
  exists v w' raw,
    RandomVector.create demo_env 3 "standard_normal" 10%float 4%float world0
    = Ok (v, w') /\
    ("standard_normal"%string = "standard_normal"%string ->
     raw = RandomVector.standard_normal demo_generator 3) /\
    ("standard_normal"%string = "wald"%string ->
     raw = RandomVector.wald demo_generator (of_Z 1) (of_Z 1) 3) /\
    Z.of_nat (length raw) = 3%Z /\
    RandomVector.components v
    = Some (map (fun r => fadd 10%float (fmul (fsqrt 4%float) r)) raw).
Proof.
  split; [lia|]. split; [reflexivity|].
  apply (components_are_affine_raw_samples demo_env 3 "standard_normal"%string
           10%float 4%float world0); [lia | reflexivity].
Defined.

(** The same two calls, evaluated: raw samples [-1, 0, 1] become
    [10 + 2 * raw]; Wald variates [2, 3, 4] likewise. *)
Example create_standard_normal_runs :
  RandomVector.create demo_env 3 "standard_normal" 10%float 4%float world0
  = Ok ({| RandomVector.id := 0%nat; RandomVector.dim := Some 3%Z;
           RandomVector.components := Some [8%float; 10%float; 12%float] |},
        tick_rng (tick_id world0)).
Proof. reflexivity. Qed.

Example create_wald_runs :
  RandomVector.create demo_env 3 "wald" 10%float 4%float world0
  = Ok ({| RandomVector.id := 0%nat; RandomVector.dim := Some 3%Z;
           RandomVector.components := Some [14%float; 16%float; 18%float] |},
        tick_rng (tick_id world0)).
Proof. reflexivity. Qed.

(** C8 as stated fails: [RandomVector(3, "standard_normal", 0, -1)] raises
    nothing and returns three NaN components. *)
Lemma negative_variance_not_rejected :
  ((-1) <? 0)%float = true /\
  RandomVector.create demo_env 3 "standard_normal" 0%float (-1)%float world0
  = Ok ({| RandomVector.id := 0%nat; RandomVector.dim := Some 3%Z;
           RandomVector.components := Some [nan; nan; nan] |},
        tick_rng (tick_id world0)) /\
  ~ (exists e,
        RandomVector.create demo_env 3 "standard_normal" 0%float (-1)%float
                            world0 = Raise e).
Proof.
  split; [reflexivity|]. split; [reflexivity|].
  intros (e & H). vm_compute in H. discriminate H.
Qed.

Lemma negative_variance_completes_with_nan_witness :
  (0 < 3)%Z /\ recognized "wald" = true /\ ((-4) <? 0)%float = true /\
  exists v w' c,
    RandomVector.create demo_env 3 "wald" 10%float (-4)%float world0
    = Ok (v, w') /\
    RandomVector.components v = Some c /\
    Z.of_nat (length c) = 3%Z /\
    Forall (fun y => is_nan y = true) c.
Proof.
  split; [lia|]. split; [reflexivity|]. split; [reflexivity|].
  apply (negative_variance_completes_with_nan demo_env 3 "wald"%string 10%float
           (-4)%float world0); [lia | reflexivity | reflexivity].
Defined.

(** * [square_norm_expectation] *)

Section ExpectationFacts.
Context {F : Type} {AF : Arith F} (env : Env F).

Lemma advance_succ w i :
  advance w (S i) = advance (tick_rng (tick_id w)) i.
Proof.
  unfold advance. now rewrite Nat.iter_succ_r.
Qed.

Lemma advance_next_id w i : next_id (advance w i) = (next_id w + i)%nat.
Proof.
  revert w. induction i as [|i IH]; intros w.
  - cbn. lia.
  - rewrite advance_succ, IH. cbn. lia.
Qed.

Lemma drawn_succ w n dim name mean variance :
  drawn env w (S n) dim name mean variance
  = built env w dim name mean variance
      :: drawn env (tick_rng (tick_id w)) n dim name mean variance.
Proof.
  unfold drawn. cbn [seq map]. f_equal.
  rewrite <- seq_shift, map_map. apply map_ext. intros i.
  now rewrite advance_succ.
Qed.

Lemma drawn_length w n dim name mean variance :
  length (drawn env w n dim name mean variance) = n.
Proof. unfold drawn. now rewrite length_map, length_seq. Qed.

Lemma drawn_ids w n dim name mean variance :
  map (@RandomVector.id F) (drawn env w n dim name mean variance)
  = seq (next_id w) n.
Proof.
  revert w. induction n as [|n IH]; intros w; [reflexivity|].
  rewrite drawn_succ. cbn [map seq]. f_equal. rewrite IH. reflexivity.
Qed.

Lemma drawn_invariant w n dim name mean variance :
  (0 < dim)%Z ->
  Forall len_invariant (drawn env w n dim name mean variance).
Proof.
  intros Hd. unfold drawn. apply Forall_map, Forall_forall. intros i _.
  now apply built_invariant.
Qed.

(** The [m] constructions of the generator expression all succeed. *)
Lemma repeat_create n dim name mean variance w :
  (0 < dim)%Z -> recognized name = true ->
  repeat_call n (RandomVector.create env dim name mean variance) w
  = Ok (drawn env w n dim name mean variance, advance w n).
Proof.
  intros Hd Hn. revert w. induction n as [|n IH]; intros w; [reflexivity|].
  cbn [repeat_call]. unfold bind at 1.
  rewrite create_recognized by assumption.
  unfold bind at 1. rewrite IH. cbn [ret].
  now rewrite drawn_succ, advance_succ.
Qed.

(** Inserting into the table keeps every member. *)
Lemma place_permutation v s : Permutation (place env v s) (v :: s).
Proof.
  induction s as [|u s IH]; cbn [place]; [reflexivity|].
  destruct (_ <? _)%nat; [reflexivity|].
  rewrite IH. apply perm_swap.
Qed.

Lemma frozenset_add_fresh s v :
  ~ In (RandomVector.id v) (map (@RandomVector.id F) s) ->
  frozenset_add env s v = place env v s.
Proof.
  intros Hfresh. unfold frozenset_add.
  destruct (existsb _ s) eqn:E; [|reflexivity].
  apply existsb_exists in E. destruct E as (u & Hu & Heq).
  apply Nat.eqb_eq in Heq. exfalso. apply Hfresh. rewrite <- Heq.
  now apply in_map.
Qed.

Lemma fold_frozenset_add l acc :
  NoDup (map (@RandomVector.id F) (acc ++ l)) ->
  Permutation (fold_left (frozenset_add env) l acc) (acc ++ l).
Proof.
  revert acc. induction l as [|v l IH]; intros acc Hnd; cbn [fold_left].
  - now rewrite app_nil_r.
  - assert (Hfresh : ~ In (RandomVector.id v) (map (@RandomVector.id F) acc)).
    { rewrite map_app in Hnd. cbn [map] in Hnd.
      apply NoDup_remove_2 in Hnd. intros Hin. apply Hnd.
      apply in_or_app. now left. }
    rewrite (frozenset_add_fresh _ _ Hfresh).
    assert (Hp : Permutation (place env v acc ++ l) (acc ++ v :: l)).
    { rewrite place_permutation. cbn [app]. apply Permutation_middle. }
    rewrite IH; [exact Hp|].
    apply (Permutation_NoDup (l := map (@RandomVector.id F) (acc ++ v :: l)));
      [|exact Hnd].
    apply Permutation_map. now symmetry.
Qed.

(** Objects of distinct identity are all kept by [frozenset]. *)
Lemma frozenset_permutation l :
  NoDup (map (@RandomVector.id F) l) -> Permutation (frozenset env l) l.
Proof. intros Hnd. apply (fold_frozenset_add l []). exact Hnd. Qed.

(** [norm_squared] succeeds on every member and touches nothing. *)
Lemma map_norm_squared vs w :
  Forall len_invariant vs ->
  exists norms,
    map_m RandomVector.norm_squared vs w = Ok (norms, w) /\
    Forall2 (fun v nv =>
               forall w1, RandomVector.norm_squared v w1 = Ok (nv, w1))
            vs norms.
Proof.
  induction 1 as [|v vs Hv _ IH].
  - exists []. split; [reflexivity | constructor].
  - destruct IH as (norms & Hm & Hall).
    destruct Hv as (d & c & _ & Hc & _).
    assert (Hns : forall w1, RandomVector.norm_squared v w1
                  = Ok (py_sum (map (fun t => NpFloat (pow2 t)) c), w1)).
    { intros w1. unfold RandomVector.norm_squared,
        RandomVector.get_components, bind. now rewrite Hc. }
    eexists. split.
    + cbn [map_m]. unfold bind at 1. rewrite Hns.
      unfold bind at 1. rewrite Hm. reflexivity.
    + constructor; assumption.
Qed.

Lemma py_truediv_nonzero (a : pynum F) m :
  m <> 0%Z -> py_truediv a m = Ok (fdiv (to_float a) (of_Z m)).
Proof.
  intros Hm. destruct a as [z|a]; cbn [py_truediv to_float]; [|reflexivity].
  apply Z.eqb_neq in Hm. now rewrite Hm.
Qed.

(** C4: for [m > 0], [dim > 0] and a recognized name, the function makes [m]
    instances, one per fresh generator; the [frozenset] built from them is a
    rearrangement of all [m] of them (none is lost); the tuple of norms holds
    the [norm_squared()] of each member, and the value returned is the sum of
    that tuple divided by [m]. *)
Theorem square_norm_expectation_is_mean
        (m dim : Z) (name : string) (mean variance : F) (w : World) :
  (0 < m)%Z -> (0 < dim)%Z -> recognized name = true ->
  let made := drawn env w (Z.to_nat m) dim name mean variance in
  exists vectors norms_squared w',
    repeat_call (Z.to_nat m)
      (RandomVector.create env dim name mean variance) w = Ok (made, w') /\
    Z.of_nat (length made) = m /\
    vectors = frozenset env made /\
    Permutation vectors made /\
    Z.of_nat (length vectors) = m /\
    Forall2 (fun v nv =>
               forall w1, RandomVector.norm_squared v w1 = Ok (nv, w1))
            vectors norms_squared /\
    square_norm_expectation env m dim name mean variance w
    = Ok (fdiv (to_float (py_sum norms_squared)) (of_Z m), w').
Proof.
  intros Hm Hd Hn made.
  assert (Hperm : Permutation (frozenset env made) made).
  { apply frozenset_permutation. unfold made. rewrite drawn_ids.
    apply seq_NoDup. }
  assert (Hinv : Forall len_invariant (frozenset env made)).
  { apply Forall_forall. intros v Hv. 
    pose proof (drawn_invariant w (Z.to_nat m) dim name mean variance Hd) as H.
    rewrite Forall_forall in H. apply H.
    apply (Permutation_in _ Hperm Hv). }
  destruct (map_norm_squared _ (advance w (Z.to_nat m)) Hinv)
    as (norms & Hnorms & Hall).
  exists (frozenset env made), norms, (advance w (Z.to_nat m)).
  split; [now apply repeat_create|].
  assert (Hlen : Z.of_nat (length made) = m).
  { unfold made. rewrite drawn_length. lia. }
  split; [exact Hlen|]. split; [reflexivity|]. split; [exact Hperm|].
  split; [now rewrite (Permutation_length Hperm)|].
  split; [exact Hall|].
  unfold square_norm_expectation. unfold bind at 1.
  rewrite repeat_create by assumption.
  unfold bind at 1. fold made. rewrite Hnorms.
  unfold lift. rewrite py_truediv_nonzero by lia. reflexivity.
Qed.

(** C10: [m = 0] passes every check there is (there is none): no instance is
    made, the set and the tuple are empty, [sum] returns the integer [0], and
    [0 / 0] raises [ZeroDivisionError], whatever the other arguments are. *)
Theorem square_norm_expectation_zero_samples
        (dim : Z) (name : string) (mean variance : F) (w : World) :
  repeat_call (Z.to_nat 0)
    (RandomVector.create env dim name mean variance) w = Ok ([], w) /\
  frozenset env [] = [] /\
  py_sum (@nil (pynum F)) = PyInt 0 /\
  square_norm_expectation env 0 dim name mean variance w
  = Raise ZeroDivisionError.
Proof. repeat split. Qed.

End ExpectationFacts.

Lemma square_norm_expectation_is_mean_witness :
  (0 < 3)%Z /\ (0 < 2)%Z /\ recognized "standard_normal" = true /\
  let made := drawn demo_env world0 (Z.to_nat 3) 2 "standard_normal"
                    10%float 4%float in
  exists vectors norms_squared w',
    repeat_call (Z.to_nat 3)
      (RandomVector.create demo_env 2 "standard_normal" 10%float 4%float)
      world0 = Ok (made, w') /\
    Z.of_nat (length made) = 3%Z /\
    vectors = frozenset demo_env made /\
    Permutation vectors made /\
    Z.of_nat (length vectors) = 3%Z /\
    Forall2 (fun v nv =>
               forall w1, RandomVector.norm_squared v w1 = Ok (nv, w1))
            vectors norms_squared /\
    square_norm_expectation demo_env 3 2 "standard_normal" 10%float 4%float
                            world0
    = Ok (fdiv (to_float (py_sum norms_squared)) (of_Z 3), w').
Proof.
  split; [lia|]. split; [lia|]. split; [reflexivity|].
  apply (square_norm_expectation_is_mean demo_env 3 2 "standard_normal"%string
           10%float 4%float world0); [lia | lia | reflexivity].
Defined.

(** The same call, evaluated: three vectors [8, 10] of squared norm 164,
    kept by the set in the reverse of the order in which they were made. *)
Example square_norm_expectation_runs :
  square_norm_expectation demo_env 3 2 "standard_normal" 10%float 4%float
                          world0
  = Ok (164%float, advance world0 3) /\
  map (@RandomVector.id float)
      (frozenset demo_env
         (drawn demo_env world0 3 2 "standard_normal" 10%float 4%float))
  = [2; 1; 0]%nat.
Proof. split; reflexivity. Qed.

Example square_norm_expectation_negative_count :
  square_norm_expectation demo_env (-2) 2 "standard_normal" 10%float 4%float
                          world0
  = Ok ((-0)%float, world0).
Proof. reflexivity. Qed.

(** * Lists indexed the way Python does *)

Section Items.
Context {A : Type}.

Lemma setitem_upd (l : list A) i v :
  (i < length l)%nat -> Caratheodory.setitem l i v = Ok (upd l i v).
Proof.
  revert i. induction l as [|a l IH]; intros i Hi; cbn in Hi; [lia|].
  destruct i as [|i]; cbn [Caratheodory.setitem upd]; [reflexivity|].
  rewrite IH by lia. reflexivity.
Qed.

Lemma getitem_nth (l : list A) i d :
  (i < length l)%nat -> Caratheodory.getitem l i = Ok (nth i l d).
Proof.
  intros Hi. unfold Caratheodory.getitem.
  now rewrite (nth_error_nth' l d Hi).
Qed.

Lemma upd_length (l : list A) i v : length (upd l i v) = length l.
Proof.
  revert i. induction l as [|a l IH]; intros [|i]; cbn; auto.
Qed.

Lemma nth_upd_same (l : list A) i v d :
  (i < length l)%nat -> nth i (upd l i v) d = v.
Proof.
  revert i. induction l as [|a l IH]; intros [|i] Hi; cbn in *;
    try lia; [reflexivity | apply IH; lia].
Qed.



Lemma firstn_succ_nth (l : list A) i d :
  (i < length l)%nat -> firstn (S i) l = (firstn i l ++ [nth i l d])%list.
Proof.
  revert i. induction l as [|a l IH]; intros i Hi; cbn in Hi; [lia|].
  destruct i as [|i]; [reflexivity|].
  cbn [firstn nth app] in *. f_equal. apply IH. lia.
Qed.

Lemma last_item_snoc (l : list A) a : Caratheodory.last_item (l ++ [a]) = Ok a.
Proof. unfold Caratheodory.last_item. now rewrite rev_unit. Qed.

End Items.

(** * Sums of reals *)

(** Exposes the real operations behind the class [Arith]. *)
Ltac real_ops :=
  cbn [of_Z fadd fsub fmul fdiv fsqrt fltb flt_inf real_arith] in *.

Section RealSums.
Local Open Scope R_scope.

Lemma np_sum_Rsum (l : list R) : np_sum l = Rsum l.
Proof.
  unfold np_sum, Rsum. real_ops.
  apply fold_symmetric; intros; lra.
Qed.



(** Weights of sum 1, one per point, leave no room for an empty [T]. *)
Lemma weighted_points_exist (T : list (list R)) (weights : list R) :
  length weights = length T -> np_sum weights = 1 -> T <> [].
Proof.
  intros Hlen Hsum ->. destruct weights as [|a l]; [|discriminate Hlen].
  unfold np_sum in Hsum. cbn in Hsum. lra.
Qed.

End RealSums.

(** * The stick-breaking construction of [coefficients] *)

Section StickBreaking.
Local Open Scope R_scope.
Context (env : Env R).
Hypothesis unit_double_range : forall i, 0 <= unit_double env i < 1.




End StickBreaking.


(** The cell run in binary64 on four points, every double being 0.25. *)
Example coefficients_runs :
  Caratheodory.coefficients demo_env 4 world0
  = Ok ([0.421875%float; 0.140625%float; 0.1875%float; 0.25%float]%list,
        {| rng_calls := 0; next_id := 0; perm_calls := 1;
           uniform_calls := 3; choice_calls := 0 |}).
Proof. reflexivity. Qed.

(** * One trial *)

Section TrialFacts.
Context {F : Type} {AF : Arith F} (env : Env F).

Lemma zip_with_length (op : F -> F -> F) u v :
  length u = length v -> length (zip_with op u v) = length u.
Proof.
  intros H. unfold zip_with. rewrite length_map, length_combine. lia.
Qed.

Lemma broadcast_same_length (op : F -> F -> F) u v :
  length u = length v -> broadcast op u v = Ok (zip_with op u v).
Proof.
  intros H. unfold broadcast. apply Nat.eqb_eq in H. now rewrite H.
Qed.

Lemma choice_advance_succ w n :
  choice_advance w (S n) = choice_advance (tick_choice w) n.
Proof. unfold choice_advance. now rewrite Nat.iter_succ_r. Qed.

Lemma choice_advance_add w a b :
  choice_advance w (a + b) = choice_advance (choice_advance w a) b.
Proof.
  revert w. induction a as [|a IH]; intros w; [reflexivity|].
  cbn [Nat.add]. rewrite !choice_advance_succ. apply IH.
Qed.

Lemma choice_advance_calls w n :
  choice_calls (choice_advance w n) = (choice_calls w + n)%nat.
Proof.
  revert w. induction n as [|n IH]; intros w.
  - cbn. lia.
  - rewrite choice_advance_succ, IH. cbn. lia.
Qed.

Lemma outcome_at_succ w n :
  outcome_at env w (S n)
  = choice env (choice_calls w) :: outcome_at env (tick_choice w) n.
Proof.
  unfold outcome_at. cbn [seq map]. rewrite Nat.add_0_r. f_equal.
  rewrite <- seq_shift, map_map. apply map_ext. intros j.
  cbn [choice_calls tick_choice]. f_equal. lia.
Qed.

(** [rand.choices] hands back the points its draws pick. *)
Lemma repeat_draw (T : list (list F)) n w :
  Forall (fun i => (i < length T)%nat) (outcome_at env w n) ->
  repeat_call n (Caratheodory.draw env T) w
  = Ok (picked T (outcome_at env w n), choice_advance w n).
Proof.
  revert w. induction n as [|n IH]; intros w Hin; [reflexivity|].
  rewrite outcome_at_succ in Hin. inversion Hin as [|? ? Hhd Htl]; subst.
  cbn [repeat_call]. unfold bind at 1. unfold Caratheodory.draw at 1.
  rewrite (getitem_nth _ _ []) by exact Hhd.
  unfold bind at 1. rewrite IH by exact Htl. cbn [ret].
  now rewrite outcome_at_succ, choice_advance_succ.
Qed.

Lemma rand_choices_runs (T : list (list F)) (weights : list F) k w :
  length weights = length T ->
  Forall (fun i => (i < length T)%nat) (outcome_at env w (Z.to_nat k)) ->
  Caratheodory.rand_choices env T weights k w
  = Ok (picked T (outcome_at env w (Z.to_nat k)),
        choice_advance w (Z.to_nat k)).
Proof.
  intros Hlen Hin. unfold Caratheodory.rand_choices.
  apply Nat.eqb_eq in Hlen. rewrite Hlen. now apply repeat_draw.
Qed.

Lemma picked_lengths (T : list (list F)) n outcome :
  Forall (fun p => length p = n) T ->
  Forall (fun i => (i < length T)%nat) outcome ->
  Forall (fun p => length p = n) (picked T outcome).
Proof.
  intros HT Hin. unfold picked. apply Forall_map.
  rewrite Forall_forall in *. intros i Hi. apply HT, nth_In, Hin, Hi.
Qed.

(** The loop that adds the drawn points up. *)
Lemma vec_sum_runs (vectors : list (list F)) :
  forall (acc : list F) w,
    Forall (fun p => length p = length acc) vectors ->
    for_each vectors
      (fun vec vec_sum => lift (broadcast fadd vec_sum vec)) acc w
    = Ok (fold_left (zip_with fadd) vectors acc, w) /\
    length (fold_left (zip_with fadd) vectors acc) = length acc.
Proof.
  induction vectors as [|v vs IH]; intros acc w Hlen; [now split|].
  inversion Hlen as [|? ? Hv Hvs]; subst.
  cbn [for_each fold_left]. unfold bind at 1. unfold lift at 1.
  rewrite broadcast_same_length by (now symmetry).
  assert (Hz : length (zip_with fadd acc v) = length acc).
  { apply zip_with_length. now symmetry. }
  destruct (IH (zip_with fadd acc v) w) as [Hrun Hl].
  { rewrite Hz. exact Hvs. }
  split; [exact Hrun | now rewrite Hl].
Qed.

(** On points of one dimension [n], a target of that dimension, as many
    weights as points and draws that pick points of [T], a trial succeeds. *)
Lemma sample_from_distribution_runs
      (n : nat) (T : list (list F)) (weights x : list F) (k : Z) (w : World) :
  T <> [] ->
  Forall (fun p => length p = n) T ->
  length x = n ->
  length weights = length T ->
  Forall (fun i => (i < length T)%nat) (outcome_at env w (Z.to_nat k)) ->
  Caratheodory.sample_from_distribution env T weights x k w
  = Ok ((distance_to x k n (picked T (outcome_at env w (Z.to_nat k))),
         picked T (outcome_at env w (Z.to_nat k))),
        choice_advance w (Z.to_nat k)).
Proof.
  intros Hne HT Hx Hw Hin.
  unfold Caratheodory.sample_from_distribution. unfold bind at 1.
  rewrite rand_choices_runs by assumption.
  destruct T as [|T0 T']; [congruence|].
  unfold bind at 1. cbn [lift Caratheodory.getitem nth_error].
  assert (HT0 : length T0 = n) by (now inversion HT).
  rewrite HT0.
  set (vectors := picked (T0 :: T') _).
  destruct (vec_sum_runs vectors (np_zeros n) (choice_advance w (Z.to_nat k)))
    as [Hrun Hlen].
  { unfold np_zeros. rewrite repeat_length.
    now apply picked_lengths. }
  unfold bind at 1. rewrite Hrun.
  unfold bind at 1.
  rewrite broadcast_same_length.
  - reflexivity.
  - rewrite length_map, Hlen. unfold np_zeros. now rewrite repeat_length.
Qed.

Lemma trial_result_runs
      (n : nat) (T : list (list F)) (weights x : list F) (k : Z) (w : World) :
  T <> [] ->
  Forall (fun p => length p = n) T ->
  length x = n ->
  length weights = length T ->
  Forall (fun i => (i < length T)%nat) (outcome_at env w (Z.to_nat k)) ->
  Caratheodory.sample_from_distribution env T weights x k w
  = Ok (trial_result env T weights x k w, choice_advance w (Z.to_nat k)) /\
  trial_result env T weights x k w
  = (distance_to x k n (picked T (outcome_at env w (Z.to_nat k))),
     picked T (outcome_at env w (Z.to_nat k))).
Proof.
  intros Hne HT Hx Hw Hin.
  pose proof (sample_from_distribution_runs n T weights x k w
                Hne HT Hx Hw Hin) as H.
  unfold trial_result. rewrite H. now split.
Qed.

End TrialFacts.

(** * The trial loop *)

Section LoopFacts.
Context {F : Type} {AF : Arith F} (env : Env F).
Context (n : nat) (T : list (list F)) (weights x : list F) (k : Z).
Hypothesis T_nonempty : T <> [].
Hypothesis T_dimension : Forall (fun p => length p = n) T.
Hypothesis x_dimension : length x = n.
Hypothesis weights_length : length weights = length T.
Hypothesis choice_in_range : forall j, (choice env j < length T)%nat.

Lemma outcome_in_range w m :
  Forall (fun i => (i < length T)%nat) (outcome_at env w m).
Proof.
  unfold outcome_at. apply Forall_map, Forall_forall. intros j _.
  apply choice_in_range.
Qed.

Lemma trial_runs w :
  Caratheodory.sample_from_distribution env T weights x k w
  = Ok (trial_result env T weights x k w, choice_advance w (Z.to_nat k)).
Proof.
  apply (trial_result_runs env n); auto using outcome_in_range.
Qed.

Lemma trial_results_succ w N :
  trial_results env T weights x k w (S N)
  = trial_result env T weights x k w
      :: trial_results env T weights x k (choice_advance w (Z.to_nat k)) N.
Proof.
  unfold trial_results. cbn [seq map]. f_equal.
  rewrite <- seq_shift, map_map. apply map_ext. intros i.
  f_equal. cbn [Nat.mul]. apply choice_advance_add.
Qed.

Lemma trial_results_length w N :
  length (trial_results env T weights x k w N) = N.
Proof. unfold trial_results. now rewrite length_map, length_seq. Qed.

Lemma trial_results_firstn w N i :
  (i <= N)%nat ->
  firstn i (trial_results env T weights x k w N)
  = trial_results env T weights x k w i.
Proof.
  revert w N. induction i as [|i IH]; intros w N Hi; [reflexivity|].
  destruct N as [|N]; [inversion Hi|].
  rewrite !trial_results_succ. cbn [firstn]. f_equal.
  apply IH. now apply le_S_n.
Qed.

Lemma trial_results_nth w N i d :
  (i < N)%nat ->
  nth i (trial_results env T weights x k w N) d
  = trial_result env T weights x k (choice_advance w (i * Z.to_nat k)).
Proof.
  intros Hi. unfold trial_results.
  rewrite (nth_indep _ d (trial_result env T weights x k
                            (choice_advance w (0 * Z.to_nat k))))
    by (now rewrite length_map, length_seq).
  rewrite (map_nth (fun i => trial_result env T weights x k
                               (choice_advance w (i * Z.to_nat k)))).
  now rewrite seq_nth.
Qed.

(** The loop records the results of its trials, one after the other. *)
Lemma loop_runs N :
  forall a st w,
    for_each (seq a N)
      (fun _ st =>
         ' (sample, vectors) <-
           Caratheodory.sample_from_distribution env T weights x k ;;
         ret (Caratheodory.record_trial st sample vectors))
      st w
    = Ok (record_all (trial_results env T weights x k w N) st,
          choice_advance w (N * Z.to_nat k)).
Proof.
  induction N as [|N IH]; intros a st w; [reflexivity|].
  cbn [seq for_each]. unfold bind at 1. unfold bind at 1.
  rewrite trial_runs.
  destruct (trial_result env T weights x k w) as [sample vectors] eqn:E.
  cbn [ret]. rewrite IH, trial_results_succ, E.
  cbn [record_all fold_left fst snd Nat.mul].
  now rewrite choice_advance_add.
Qed.

Lemma trials_run numSamples w :
  Caratheodory.trials env T weights x k numSamples w
  = Ok (record_all (trial_results env T weights x k w (Z.to_nat numSamples))
                   Caratheodory.loop0,
        choice_advance w (Z.to_nat numSamples * Z.to_nat k)).
Proof. unfold Caratheodory.trials, range. apply loop_runs. Qed.

Lemma record_all_snoc rs r (st : Caratheodory.Loop) :
  record_all (rs ++ [r]) st
  = Caratheodory.record_trial (record_all rs st) (fst r) (snd r).
Proof. unfold record_all. now rewrite fold_left_app. Qed.

Lemma record_all_samples rs :
  forall st : Caratheodory.Loop,
    Caratheodory.samples (record_all rs st)
    = (Caratheodory.samples st ++ map fst rs)%list.
Proof.
  induction rs as [|r rs IH]; intros st; cbn [record_all fold_left map].
  - now rewrite app_nil_r.
  - unfold record_all in IH. rewrite IH.
    unfold Caratheodory.record_trial.
    destruct (Caratheodory.lt_best _ _); cbn [Caratheodory.samples];
      now rewrite <- app_assoc.
Qed.

End LoopFacts.

(** ** The best trial, over the reals *)

Section BestTrial.
Local Open Scope R_scope.

Lemma lt_best_below (sample : R) (bestVal : pyfloat R) :
  Caratheodory.lt_best sample bestVal = true <-> below sample bestVal.
Proof.
  destruct bestVal as [|b]; cbn [Caratheodory.lt_best below]; real_ops.
  - tauto.
  - destruct (Rlt_dec sample b); split; intros; try discriminate; auto.
Qed.

(** One iteration: [best] and [bestVal] move exactly when the new sample is
    strictly below [bestVal]. *)
Lemma record_trial_best (st : Caratheodory.Loop) (sample : R)
      (vectors : list (list R)) :
  let st' := Caratheodory.record_trial st sample vectors in
  (below sample (Caratheodory.bestVal st) ->
   Caratheodory.bestVal st' = Finite sample /\
   Caratheodory.best st' = Some vectors) /\
  (~ below sample (Caratheodory.bestVal st) ->
   Caratheodory.bestVal st' = Caratheodory.bestVal st /\
   Caratheodory.best st' = Caratheodory.best st).
Proof.
  cbv zeta. unfold Caratheodory.record_trial.
  destruct (Caratheodory.lt_best sample (Caratheodory.bestVal st)) eqn:E.
  - apply lt_best_below in E. split; [now split | contradiction].
  - split; [|now split]. intros Hb. apply lt_best_below in Hb. congruence.
Qed.

End BestTrial.

(** ** The best trial, whatever the arithmetic *)

(** One iteration, for any arithmetic: [best] and [bestVal] are replaced
    exactly when [sample < bestVal] holds. *)
Lemma record_trial_step {F : Type} {AF : Arith F}
      (st : Caratheodory.Loop) (sample : F) (vectors : list (list F)) :
  let st' := Caratheodory.record_trial st sample vectors in
  (Caratheodory.lt_best sample (Caratheodory.bestVal st) = true ->
   Caratheodory.bestVal st' = Finite sample /\
   Caratheodory.best st' = Some vectors) /\
  (Caratheodory.lt_best sample (Caratheodory.bestVal st) = false ->
   Caratheodory.bestVal st' = Caratheodory.bestVal st /\
   Caratheodory.best st' = Caratheodory.best st).
Proof.
  cbv zeta. unfold Caratheodory.record_trial.
  destruct (Caratheodory.lt_best sample (Caratheodory.bestVal st));
    split; intros H; try discriminate H; now split.
Qed.

Section LeastRecorded.
Context {F : Type} {AF : Arith F}.
Hypothesis fltb_irrefl : forall a : F, fltb a a = false.
Hypothesis fltb_trans :
  forall a b c : F, fltb a b = true -> fltb b c = true -> fltb a c = true.
Hypothesis fltb_below_inf :
  forall a b : F, fltb a b = true -> flt_inf a = true.

Lemma lt_best_below_inf (a : F) (bv : pyfloat F) :
  Caratheodory.lt_best a bv = true -> flt_inf a = true.
Proof.
  destruct bv as [|b]; cbn [Caratheodory.lt_best]; [trivial|].
  apply fltb_below_inf.
Qed.

(** What was not below the old [bestVal] is not below a value that was. *)
Lemma not_below_lower (s a : F) (bv : pyfloat F) :
  Caratheodory.lt_best s bv = false ->
  Caratheodory.lt_best a bv = true ->
  fltb s a = false.
Proof.
  intros Hs Ha. destruct (fltb s a) eqn:E; [|reflexivity].
  destruct bv as [|b]; cbn [Caratheodory.lt_best] in Hs, Ha.
  - rewrite (fltb_below_inf _ _ E) in Hs. discriminate Hs.
  - rewrite (fltb_trans _ _ _ E Ha) in Hs. discriminate Hs.
Qed.

(** The invariant of the loop: no recorded distance is strictly below
    [bestVal]; and either no recorded distance is below infinity, and
    [bestVal] and [best] are untouched, or they are those of a recorded
    trial whose distance is below infinity. *)
Lemma record_all_least (rs : list (F * list (list F))) :
  let st := record_all rs Caratheodory.loop0 in
  let d := (of_Z 0, []) in
  Forall (fun r => Caratheodory.lt_best (fst r) (Caratheodory.bestVal st)
                   = false) rs /\
  ((Forall (fun r => flt_inf (fst r) = false) rs /\
    Caratheodory.bestVal st = PosInf /\ Caratheodory.best st = None)
   \/
   (exists i,
       (i < length rs)%nat /\
       Caratheodory.bestVal st = Finite (fst (nth i rs d)) /\
       Caratheodory.best st = Some (snd (nth i rs d)) /\
       flt_inf (fst (nth i rs d)) = true)).
Proof.
  cbv zeta. induction rs as [|r rs IH] using rev_ind.
  - split; [constructor|]. left. now repeat split.
  - rewrite record_all_snoc.
    destruct (record_trial_step (record_all rs Caratheodory.loop0)
                (fst r) (snd r)) as [Hup Hkeep].
    destruct IH as [Hall Hcase].
    destruct (Caratheodory.lt_best (fst r)
                (Caratheodory.bestVal (record_all rs Caratheodory.loop0)))
      eqn:E.
    + destruct (Hup eq_refl) as [H1 H2]. rewrite H1, H2. split.
      * apply Forall_app. split.
        -- eapply Forall_impl; [|exact Hall]. cbv beta. intros a Ha.
           cbn [Caratheodory.lt_best]. eapply not_below_lower; eauto.
        -- constructor; [|constructor]. cbn [Caratheodory.lt_best].
           apply fltb_irrefl.
      * right. exists (length rs). rewrite length_app. cbn [length].
        rewrite nth_middle. split; [lia|]. split; [reflexivity|].
        split; [reflexivity|]. eapply lt_best_below_inf. exact E.
    + destruct (Hkeep eq_refl) as [H1 H2]. rewrite H1, H2. split.
      * apply Forall_app. split; [exact Hall|].
        constructor; [exact E | constructor].
      * destruct Hcase as [(Hno & HbV & Hb) | (i & Hi & HbV & Hb & Hfin)].
        -- left. split; [|now split]. apply Forall_app. split; [exact Hno|].
           constructor; [|constructor]. rewrite HbV in E. exact E.
        -- right. exists i. rewrite length_app. cbn [length].
           rewrite app_nth1 by exact Hi.
           split; [lia|]. now repeat split.
Qed.

End LeastRecorded.

(** ** Order in binary64 *)

Lemma SFltb_irrefl (a : spec_float) : SFltb a a = false.
Proof.
  unfold SFltb, SFcompare.
  destruct a as [[|]|[|]| |[|] m e]; try reflexivity;
    rewrite Z.compare_refl;
    change (Pos.compare_cont Eq m m) with (Pos.compare m m);
    now rewrite Pos.compare_refl.
Qed.

Lemma SFltb_trans (a b c : spec_float) :
  SFltb a b = true -> SFltb b c = true -> SFltb a c = true.
Proof.
  unfold SFltb, SFcompare.
  destruct a as [[|]|[|]| |[|] ma ea], b as [[|]|[|]| |[|] mb eb],
           c as [[|]|[|]| |[|] mc ec];
    try reflexivity; try discriminate;
    change (Pos.compare_cont Eq ma mb) with (Pos.compare ma mb);
    change (Pos.compare_cont Eq mb mc) with (Pos.compare mb mc);
    change (Pos.compare_cont Eq ma mc) with (Pos.compare ma mc);
    destruct (Z.compare_spec ea eb), (Z.compare_spec eb ec),
             (Z.compare_spec ea ec);
    try reflexivity; try discriminate; try lia;
    destruct (Pos.compare_spec ma mb), (Pos.compare_spec mb mc),
             (Pos.compare_spec ma mc);
    cbn; try reflexivity; try discriminate; try lia.
Qed.

Lemma SFltb_below_infinity (a b : spec_float) :
  SFltb a b = true -> SFltb a (S754_infinity false) = true.
Proof.
  unfold SFltb, SFcompare.
  destruct a as [[|]|[|]| |[|] ma ea], b as [[|]|[|]| |[|] mb eb];
    try reflexivity; try discriminate.
Qed.

(** [<] on doubles is irreflexive and transitive (a NaN is below nothing
    and nothing is below it), and what is below something is below
    infinity. *)
Lemma ltb_irrefl (a : float) : fltb a a = false.
Proof.
  cbn [fltb float_arith]. rewrite FloatAxioms.ltb_spec. apply SFltb_irrefl.
Qed.

Lemma ltb_trans (a b c : float) :
  fltb a b = true -> fltb b c = true -> fltb a c = true.
Proof.
  cbn [fltb float_arith]. rewrite !FloatAxioms.ltb_spec. apply SFltb_trans.
Qed.

Lemma ltb_below_infinity (a b : float) :
  fltb a b = true -> flt_inf a = true.
Proof.
  cbn [fltb flt_inf float_arith]. rewrite !FloatAxioms.ltb_spec.
  change (Prim2SF infinity) with (S754_infinity false).
  apply SFltb_below_infinity.
Qed.

(** ** The best trial, in binary64 *)

Section BestTrialBinary64.
Context (env : Env float).
Context (n : nat) (T : list (list float)) (weights x : list float) (k : Z).
Hypothesis T_nonempty : T <> [].
Hypothesis T_dimension : Forall (fun p => length p = n) T.
Hypothesis x_dimension : length x = n.
Hypothesis weights_length : length weights = length T.
Hypothesis choice_in_range : forall j, (choice env j < length T)%nat.

(** C5, as the code's doubles have it: a loop of [numSamples >= 1] trials
    ends; [samples] holds the distance of every trial, in order; no
    recorded distance is strictly below [bestVal]; when some recorded
    distance is below infinity, [bestVal] is a recorded distance and [best]
    the draw of the trial that returned it, and otherwise (every distance
    infinite or NaN) [bestVal] is still infinite and [best] still [None];
    and at every iteration [best] and [bestVal] are replaced by the new
    trial exactly when its distance is strictly below [bestVal]. *)
Theorem best_tracks_minimum (numSamples : Z) (w : World) :
  (1 <= numSamples)%Z ->
  let N := Z.to_nat numSamples in
  let results := trial_results env T weights x k w N in
  let st := record_all results Caratheodory.loop0 in
  let d := (of_Z 0, []) in
  Caratheodory.trials env T weights x k numSamples w
  = Ok (st, choice_advance w (N * Z.to_nat k)) /\
  (forall i, (i < N)%nat ->
     Caratheodory.sample_from_distribution env T weights x k
       (choice_advance w (i * Z.to_nat k))
     = Ok (nth i results d, choice_advance w (S i * Z.to_nat k))) /\
  Caratheodory.samples st = map fst results /\
  Z.of_nat (length (Caratheodory.samples st)) = numSamples /\
  Forall (fun s => Caratheodory.lt_best s (Caratheodory.bestVal st) = false)
         (Caratheodory.samples st) /\
  ((Forall (fun s => flt_inf s = false) (Caratheodory.samples st) /\
    Caratheodory.bestVal st = PosInf /\ Caratheodory.best st = None)
   \/
   (exists i,
       (i < N)%nat /\
       Caratheodory.bestVal st = Finite (fst (nth i results d)) /\
       Caratheodory.best st = Some (snd (nth i results d)) /\
       flt_inf (fst (nth i results d)) = true /\
       In (fst (nth i results d)) (Caratheodory.samples st))) /\
  (forall i, (i < N)%nat ->
     let before := record_all (firstn i results) Caratheodory.loop0 in
     let after := record_all (firstn (S i) results) Caratheodory.loop0 in
     let r := nth i results d in
     Caratheodory.trials env T weights x k (Z.of_nat i) w
     = Ok (before, choice_advance w (i * Z.to_nat k)) /\
     Caratheodory.trials env T weights x k (Z.of_nat (S i)) w
     = Ok (after, choice_advance w (S i * Z.to_nat k)) /\
     Caratheodory.samples after
     = (Caratheodory.samples before ++ [fst r])%list /\
     (Caratheodory.lt_best (fst r) (Caratheodory.bestVal before) = true ->
      Caratheodory.bestVal after = Finite (fst r) /\
      Caratheodory.best after = Some (snd r)) /\
     (Caratheodory.lt_best (fst r) (Caratheodory.bestVal before) = false ->
      Caratheodory.bestVal after = Caratheodory.bestVal before /\
      Caratheodory.best after = Caratheodory.best before)).
Proof.
  intros HN N results st d.
  pose proof (trials_run env n T weights x k T_nonempty T_dimension
                x_dimension weights_length choice_in_range) as Hrun.
  assert (Hlen : length results = N).
  { apply trial_results_length. }
  assert (Hsamples : Caratheodory.samples st = map fst results).
  { unfold st. now rewrite record_all_samples. }
  destruct (record_all_least ltb_irrefl ltb_trans ltb_below_infinity results)
    as [Hall Hcase].
  fold st in Hall, Hcase. fold d in Hcase.
  split; [apply Hrun|]. split.
  { intros i Hi. unfold results.
    rewrite trial_results_nth by exact Hi.
    rewrite (trial_runs env n T weights x k) by assumption.
    f_equal. f_equal. cbn [Nat.mul]. rewrite Nat.add_comm.
    symmetry. apply choice_advance_add. }
  split; [exact Hsamples|]. split.
  { rewrite Hsamples, length_map, Hlen. unfold N. lia. }
  split.
  { rewrite Hsamples. apply Forall_map. exact Hall. }
  split.
  { destruct Hcase as [(Hno & HbV & Hb) | (i & Hi & HbV & Hb & Hfin)].
    - left. split; [|now split]. rewrite Hsamples.
      apply Forall_map. exact Hno.
    - right. exists i. rewrite Hlen in Hi. split; [exact Hi|].
      split; [exact HbV|]. split; [exact Hb|]. split; [exact Hfin|].
      rewrite Hsamples. apply in_map, nth_In. now rewrite Hlen. }
  intros i Hi before after r.
  assert (Hpre : firstn i results = trial_results env T weights x k w i).
  { apply trial_results_firstn. lia. }
  assert (Hpost : firstn (S i) results
                  = trial_results env T weights x k w (S i)).
  { apply trial_results_firstn. lia. }
  assert (Hsnoc : firstn (S i) results = (firstn i results ++ [r])%list).
  { apply firstn_succ_nth. now rewrite Hlen. }
  split.
  { unfold before. rewrite Hpre, Hrun. now rewrite Nat2Z.id. }
  split.
  { unfold after. rewrite Hpost, Hrun. now rewrite Nat2Z.id. }
  assert (Hafter : after = Caratheodory.record_trial before (fst r) (snd r)).
  { unfold after, before. rewrite Hsnoc. apply record_all_snoc. }
  split.
  { unfold after, before. rewrite !record_all_samples, Hsnoc, map_app.
    reflexivity. }
  rewrite Hafter. apply record_trial_step.
Qed.

End BestTrialBinary64.

(** * Finite sums, coordinates and expectations *)

Section FiniteSums.
Local Open Scope R_scope.

Lemma big_sum_ext (f g : nat -> R) n :
  (forall i, (i < n)%nat -> f i = g i) -> big_sum f n = big_sum g n.
Proof.
  induction n as [|n IH]; intros H; cbn [big_sum]; [reflexivity|].
  rewrite IH, H by (intros; try apply H; lia). reflexivity.
Qed.


Lemma big_sum_scal (c : R) (f : nat -> R) n :
  big_sum (fun i => c * f i) n = c * big_sum f n.
Proof. induction n as [|n IH]; cbn [big_sum]; [lra | rewrite IH; lra]. Qed.

Lemma big_sum_scal_r (c : R) (f : nat -> R) n :
  big_sum (fun i => f i * c) n = big_sum f n * c.
Proof. induction n as [|n IH]; cbn [big_sum]; [lra | rewrite IH; lra]. Qed.



Lemma big_sum_le (f g : nat -> R) n :
  (forall i, (i < n)%nat -> f i <= g i) -> big_sum f n <= big_sum g n.
Proof.
  induction n as [|n IH]; intros H; cbn [big_sum]; [lra|].
  assert (big_sum f n <= big_sum g n) by (apply IH; intros; apply H; lia).
  assert (f n <= g n) by (apply H; lia). lra.
Qed.



Lemma Rsum_cons (a : R) (l : list R) : Rsum (a :: l) = a + Rsum l.
Proof. reflexivity. Qed.

Lemma Rsum_app (l1 l2 : list R) : Rsum (l1 ++ l2) = Rsum l1 + Rsum l2.
Proof.
  induction l1 as [|a l1 IH]; cbn [app].
  - unfold Rsum at 2. cbn. lra.
  - rewrite !Rsum_cons, IH. lra.
Qed.

Lemma Rsum_map_seq (f : nat -> R) n :
  Rsum (map f (seq 0 n)) = big_sum f n.
Proof.
  induction n as [|n IH]; [reflexivity|].
  rewrite seq_S, map_app, Rsum_app, IH. cbn [big_sum map Nat.add].
  rewrite Rsum_cons. unfold Rsum. cbn. lra.
Qed.

Lemma Rsum_big_sum (l : list R) :
  Rsum l = big_sum (fun i => nth i l 0) (length l).
Proof.
  rewrite <- Rsum_map_seq. f_equal.
  induction l as [|a l IH]; [reflexivity|].
  cbn [length seq map nth]. f_equal.
  rewrite <- seq_shift, map_map. exact IH.
Qed.

Lemma nth_map_lt {A B} (f : A -> B) (l : list A) i d d' :
  (i < length l)%nat -> nth i (map f l) d = f (nth i l d').
Proof.
  intros Hi. rewrite (nth_indep _ d (f d')) by (now rewrite length_map).
  apply map_nth.
Qed.

Lemma nth_zip_with (op : R -> R -> R) (u v : list R) i :
  (i < length u)%nat -> length u = length v ->
  nth i (zip_with op u v) 0 = op (nth i u 0) (nth i v 0).
Proof.
  intros Hi Hlen. unfold zip_with.
  rewrite (nth_map_lt _ _ _ _ (0, 0)) by (rewrite length_combine; lia).
  now rewrite combine_nth.
Qed.

(** Coordinate [c] of the sum the trial accumulates. *)
Lemma nth_vec_sum (vectors : list (list R)) :
  forall (acc : list R) c,
    Forall (fun p => length p = length acc) vectors ->
    (c < length acc)%nat ->
    nth c (fold_left (zip_with fadd) vectors acc) 0
    = nth c acc 0 + Rsum (map (fun v => nth c v 0) vectors).
Proof.
  induction vectors as [|v vs IH]; intros acc c Hlen Hc.
  - cbn. unfold Rsum. cbn. lra.
  - inversion Hlen as [|? ? Hv Hvs]; subst.
    cbn [fold_left map]. rewrite Rsum_cons.
    assert (Hz : length (zip_with fadd acc v) = length acc).
    { apply zip_with_length. now symmetry. }
    rewrite IH by (rewrite Hz; assumption).
    rewrite nth_zip_with by (auto; now symmetry). real_ops. lra.
Qed.

Lemma sq_dist_big_sum (u v : list R) n :
  length u = n -> length v = n ->
  sq_dist u v
  = big_sum (fun c => (nth c u 0 - nth c v 0) * (nth c u 0 - nth c v 0)) n.
Proof.
  intros Hu Hv. unfold sq_dist. rewrite Rsum_big_sum.
  rewrite length_map, length_combine, Hu, Hv, Nat.min_id.
  apply big_sum_ext. intros c Hc.
  rewrite (nth_map_lt _ _ _ _ (0, 0)) by (rewrite length_combine; lia).
  now rewrite combine_nth by lia.
Qed.

(** The distance of a trial, coordinate by coordinate. *)
Lemma distance_to_big_sum (x : list R) (k : Z) (n : nat)
      (vectors : list (list R)) :
  length x = n ->
  Forall (fun p => length p = n) vectors ->
  distance_to x k n vectors
  = big_sum (fun c =>
               let s := Rsum (map (fun v => nth c v 0) vectors) in
               (nth c x 0 - s / IZR k) * (nth c x 0 - s / IZR k)) n.
Proof.
  intros Hx Hvs. unfold distance_to. rewrite np_sum_Rsum, Rsum_big_sum.
  assert (Hz : length (np_zeros (F := R) n) = n) by apply repeat_length.
  assert (Hsum : length (fold_left (zip_with fadd) vectors (np_zeros n)) = n).
  { destruct (vec_sum_runs vectors (np_zeros n) world0) as [_ H].
    - now rewrite Hz.
    - now rewrite H. }
  assert (Hd : length (zip_with fsub x
                         (map (fun s => fdiv s (of_Z k))
                              (fold_left (zip_with fadd) vectors (np_zeros n))))
               = n).
  { rewrite zip_with_length; [exact Hx|]. now rewrite length_map, Hsum. }
  rewrite length_map, Hd.
  apply big_sum_ext. intros c Hc. cbv zeta.
  rewrite (nth_map_lt _ _ _ _ 0) by (now rewrite Hd).
  rewrite nth_zip_with by (rewrite ?length_map, ?Hsum; lia).
  rewrite (nth_map_lt _ _ _ _ 0) by (now rewrite Hsum).
  rewrite nth_vec_sum by (rewrite ?Hz; assumption).
  unfold np_zeros. rewrite nth_repeat. unfold pow2. real_ops.
  rewrite Rplus_0_l. reflexivity.
Qed.

End FiniteSums.

(** * [square_norm_expectation] in exact arithmetic *)

Section ExactMean.
Local Open Scope R_scope.

Lemma to_float_py_add (a b : pynum R) :
  to_float (py_add a b) = to_float a + to_float b.
Proof.
  destruct a, b; cbn [py_add to_float]; real_ops; try reflexivity.
  apply plus_IZR.
Qed.

Lemma to_float_fold_py_add (l : list (pynum R)) :
  forall a, to_float (fold_left py_add l a)
            = to_float a + Rsum (map to_float l).
Proof.
  induction l as [|b l IH]; intros a; cbn [fold_left map].
  - unfold Rsum. cbn. lra.
  - rewrite IH, to_float_py_add, Rsum_cons. lra.
Qed.

Lemma to_float_py_sum (l : list (pynum R)) :
  to_float (py_sum l) = Rsum (map to_float l).
Proof.
  unfold py_sum. rewrite to_float_fold_py_add. cbn [to_float]. real_ops. lra.
Qed.

Lemma Rsum_permutation (l l' : list R) :
  Permutation l l' -> Rsum l = Rsum l'.
Proof.
  induction 1 as [| a l l' _ IH | a b l | l l' l'' _ IH1 _ IH2];
    rewrite ?Rsum_cons; lra.
Qed.

Lemma norm_squared_value (v : RandomVector.t R) (nv : pynum R) (w : World) :
  RandomVector.norm_squared v w = Ok (nv, w) ->
  to_float nv = norm_squared_of v.
Proof.
  unfold RandomVector.norm_squared, RandomVector.get_components,
    norm_squared_of, bind.
  destruct (RandomVector.components v) as [c|]; [|discriminate].
  cbn [ret]. intros H. injection H as <-.
  rewrite to_float_py_sum, map_map. reflexivity.
Qed.

(** Over the reals the order in which the set hands out its members does
    not matter: the result is the sum of the squared norms of the [m]
    instances, in the order in which they were made, divided by [m]. *)
Lemma square_norm_expectation_exact
      (env : Env R) (m dim : Z) (name : string) (mean variance : R)
      (w : World) :
  (0 < m)%Z -> (0 < dim)%Z -> recognized name = true ->
  square_norm_expectation env m dim name mean variance w
  = Ok (Rsum (map norm_squared_of
                  (drawn env w (Z.to_nat m) dim name mean variance))
        / IZR m,
        advance w (Z.to_nat m)).
Proof.
  intros Hm Hd Hn.
  set (made := drawn env w (Z.to_nat m) dim name mean variance).
  assert (Hperm : Permutation (frozenset env made) made).
  { apply frozenset_permutation. unfold made. rewrite drawn_ids.
    apply seq_NoDup. }
  assert (Hinv : Forall len_invariant (frozenset env made)).
  { apply Forall_forall. intros v Hv.
    pose proof (drawn_invariant env w (Z.to_nat m) dim name mean variance Hd)
      as H.
    rewrite Forall_forall in H. apply H, (Permutation_in _ Hperm Hv). }
  destruct (map_norm_squared (frozenset env made) (advance w (Z.to_nat m)) Hinv)
    as (norms & Hnorms & Hall).
  assert (Hvals : map to_float norms
                  = map norm_squared_of (frozenset env made)).
  { clear Hnorms Hinv Hperm. induction Hall as [|v nv vs ns Hv _ IH].
    - reflexivity.
    - cbn [map]. f_equal; [|exact IH].
      apply (norm_squared_value v nv world0), Hv. }
  unfold square_norm_expectation. unfold bind at 1.
  rewrite repeat_create by assumption.
  unfold bind at 1. fold made. rewrite Hnorms.
  unfold lift. rewrite py_truediv_nonzero by lia.
  rewrite to_float_py_sum, Hvals.
  rewrite (Rsum_permutation _ _ (Permutation_map norm_squared_of Hperm)).
  reflexivity.
Qed.

End ExactMean.

(** * A trial of a single draw *)

Section SingleDraw.
Local Open Scope R_scope.

Lemma positive_weight_exists (weights : list R) :
  Forall (fun a => 0 <= a) weights -> Rsum weights = 1 ->
  exists i, can_draw weights i.
Proof.
  induction 1 as [|a l Ha Hl IH]; intros Hsum.
  - unfold Rsum in Hsum. cbn in Hsum. lra.
  - rewrite Rsum_cons in Hsum.
    destruct (Rlt_dec 0 a) as [Hpos | Hzero].
    + exists O. split; [cbn; lia | exact Hpos].
    + destruct IH as (i & Hi & Hw); [lra|].
      exists (S i). split; [cbn; lia | exact Hw].
Qed.

(** Among finitely many indices that can be drawn, one is closest. *)
Lemma closest_drawable (weights : list R) (f : nat -> R) (m : nat) :
  (exists i, (i < m)%nat /\ can_draw weights i /\
             forall j, (j < m)%nat -> can_draw weights j -> f i <= f j)
  \/ (forall j, (j < m)%nat -> ~ can_draw weights j).
Proof.
  induction m as [|m IH]; [right; intros j Hj; lia|].
  assert (Hdec : can_draw weights m \/ ~ can_draw weights m).
  { unfold can_draw.
    destruct (lt_dec m (length weights)), (Rlt_dec 0 (nth m weights 0));
      tauto. }
  destruct IH as [(i & Hi & Hdraw & Hmin) | Hnone], Hdec as [Hm | Hm].
  - destruct (Rle_dec (f i) (f m)) as [Hle | Hgt]; left.
    + exists i. split; [lia|]. split; [exact Hdraw|]. intros j Hj Hdj.
      destruct (Nat.eq_dec j m) as [-> | Hne]; [exact Hle|].
      apply Hmin; [lia | exact Hdj].
    + exists m. split; [lia|]. split; [exact Hm|]. intros j Hj Hdj.
      destruct (Nat.eq_dec j m) as [-> | Hne]; [lra|].
      assert (f i <= f j) by (apply Hmin; [lia | exact Hdj]). lra.
  - left. exists i. split; [lia|]. split; [exact Hdraw|]. intros j Hj Hdj.
    destruct (Nat.eq_dec j m) as [-> | Hne]; [contradiction|].
    apply Hmin; [lia | exact Hdj].
  - left. exists m. split; [lia|]. split; [exact Hm|]. intros j Hj Hdj.
    destruct (Nat.eq_dec j m) as [-> | Hne]; [lra|].
    exfalso. apply (Hnone j); [lia | exact Hdj].
  - right. intros j Hj Hdj.
    destruct (Nat.eq_dec j m) as [-> | Hne]; [contradiction|].
    apply (Hnone j); [lia | exact Hdj].
Qed.

Context (n : nat) (T : list (list R)) (weights x : list R).
Hypothesis T_dimension : Forall (fun p => length p = n) T.
Hypothesis x_dimension : length x = n.
Hypothesis weights_length : length weights = length T.
Hypothesis weights_nonneg : Forall (fun a => 0 <= a) weights.
Hypothesis weights_total : np_sum weights = 1.

(** With [k = 1] the trial returns the point it drew and its squared
    distance to the target. *)
Lemma single_draw_runs (env : Env R) (w : World) :
  (choice env (choice_calls w) < length T)%nat ->
  let p := nth (choice env (choice_calls w)) T [] in
  Caratheodory.sample_from_distribution env T weights x 1 w
  = Ok ((sq_dist x p, [p]), tick_choice w).
Proof.
  intros Hc p.
  assert (Hin : Forall (fun i => (i < length T)%nat)
                       (outcome_at env w (Z.to_nat 1))).
  { change (Z.to_nat 1) with 1%nat. unfold outcome_at. cbn [seq map].
    rewrite Nat.add_0_r. now constructor. }
  rewrite (sample_from_distribution_runs env n)
    by (try assumption;
        exact (weighted_points_exist T weights weights_length weights_total)).
  change (Z.to_nat 1) with 1%nat. unfold outcome_at.
  cbn [seq map picked choice_advance Nat.iter].
  rewrite Nat.add_0_r. fold p.
  assert (Hp : length p = n).
  { rewrite Forall_forall in T_dimension. apply T_dimension.
    now apply nth_In. }
  rewrite distance_to_big_sum by (auto; now constructor).
  rewrite (sq_dist_big_sum x p n) by assumption.
  f_equal. f_equal. f_equal. apply big_sum_ext. intros c Hcn. cbv zeta.
  cbn [map]. rewrite Rsum_cons. unfold Rsum. cbn [fold_right].
  replace ((nth c p 0 + 0) / 1) with (nth c p 0) by lra. reflexivity.
Qed.

(** C9: with [k = 1] every trial returns the squared distance from the
    target to the one point of [T] it drew; and over all the draws that can
    happen (the indices of positive weight) the least distance a trial can
    return is the least squared distance from the target to a point of
    positive weight, and some draw returns it. *)
Theorem single_draw_trial :
  (forall (env : Env R) (w : World),
      (choice env (choice_calls w) < length T)%nat ->
      let p := nth (choice env (choice_calls w)) T [] in
      In p T /\
      Caratheodory.sample_from_distribution env T weights x 1 w
      = Ok ((sq_dist x p, [p]), tick_choice w)) /\
  exists closest,
    can_draw weights closest /\
    (forall i, can_draw weights i ->
               sq_dist x (nth closest T []) <= sq_dist x (nth i T [])) /\
    (forall (env : Env R) (w : World),
        can_draw weights (choice env (choice_calls w)) ->
        exists d vectors w',
          Caratheodory.sample_from_distribution env T weights x 1 w
          = Ok ((d, vectors), w') /\
          sq_dist x (nth closest T []) <= d) /\
    (exists env : Env R,
        can_draw weights (choice env (choice_calls world0)) /\
        Caratheodory.sample_from_distribution env T weights x 1 world0
        = Ok ((sq_dist x (nth closest T []), [nth closest T []]),
              tick_choice world0)).
Proof.
  split.
  { intros env w Hc p. split; [now apply nth_In|].
    now apply single_draw_runs. }
  pose proof weights_total as Htotal. rewrite np_sum_Rsum in Htotal.
  destruct (positive_weight_exists weights weights_nonneg Htotal)
    as (i0 & Hi0).
  destruct (closest_drawable weights (fun i => sq_dist x (nth i T []))
                             (length weights))
    as [(i & Hi & Hdraw & Hmin) | Hnone].
  2: { exfalso. apply (Hnone i0); [apply Hi0 | exact Hi0]. }
  exists i. split; [exact Hdraw|]. split.
  { intros j Hj. apply Hmin; [apply Hj | exact Hj]. }
  split.
  { intros env w Hc.
    assert (Hlt : (choice env (choice_calls w) < length T)%nat).
    { rewrite <- weights_length. apply Hc. }
    do 3 eexists. split; [now apply single_draw_runs|].
    apply Hmin; [apply Hc | exact Hc]. }
  exists (tape_env [i]). cbn [choice tape_env choice_calls world0 nth].
  split; [exact Hdraw|].
  apply (single_draw_runs (tape_env [i]) world0).
  cbn [choice tape_env choice_calls world0 nth]. now rewrite <- weights_length.
Qed.

End SingleDraw.

(** * Expectation over independent weighted draws *)

Section DrawExpectation.
Local Open Scope R_scope.
Context (weights : list R).






Hypothesis weights_total :
  big_sum (fun i => nth i weights 0) (length weights) = 1.




Hypothesis weights_nonneg : forall i, 0 <= nth i weights 0.


Lemma weighted_mean_le (f : nat -> R) (b : R) :
  (forall i, (i < length weights)%nat -> f i <= b) ->
  big_sum (fun i => nth i weights 0 * f i) (length weights) <= b.
Proof.
  intros H.
  replace b with (big_sum (fun i => nth i weights 0 * b) (length weights)).
  - apply big_sum_le. intros i Hi.
    apply Rmult_le_compat_l; [apply weights_nonneg | now apply H].
  - rewrite big_sum_scal_r, weights_total. lra.
Qed.

End DrawExpectation.

(** * The target and the diameter *)

Section TargetAndDiameter.
Local Open Scope R_scope.
Context (n : nat) (T : list (list R)) (weights : list R).
Hypothesis T_dimension : Forall (fun p => length p = n) T.
Hypothesis weights_length : length weights = length T.

Lemma point_length i : (i < length T)%nat -> length (nth i T []) = n.
Proof.
  intros Hi. rewrite Forall_forall in T_dimension.
  now apply T_dimension, nth_In.
Qed.

(** The loop of the cell that builds [x], over the indices [idxs]. *)
Lemma x_loop (idxs : list nat) :
  forall (acc : list R) (w : World),
    length acc = n ->
    Forall (fun i => (i < length T)%nat) idxs ->
    exists X,
      for_each idxs
        (fun i x =>
           c <- lift (Caratheodory.getitem weights i) ;;
           Ti <- lift (Caratheodory.getitem T i) ;;
           lift (broadcast fadd x (map (fmul c) Ti)))
        acc w
      = Ok (X, w) /\
      length X = n /\
      forall c, (c < n)%nat ->
        nth c X 0
        = nth c acc 0
          + Rsum (map (fun i => nth i weights 0 * nth c (nth i T []) 0) idxs).
Proof.
  induction idxs as [|i idxs IH]; intros acc w Hacc Hin.
  - exists acc. split; [reflexivity|]. split; [exact Hacc|].
    intros c _. unfold Rsum. cbn. lra.
  - apply Forall_cons_iff in Hin as [Hi Hrest].
    set (step := zip_with fadd acc
                   (map (fmul (nth i weights 0)) (nth i T []))).
    assert (Hstep : length step = length acc).
    { apply zip_with_length. now rewrite length_map, point_length. }
    destruct (IH step w) as (X & Hrun & HX & Hcoord);
      [now rewrite Hstep | exact Hrest |].
    exists X. split.
    + cbn [for_each]. unfold bind at 1. unfold bind at 1.
      unfold lift at 1.
      rewrite (getitem_nth _ _ 0) by (now rewrite weights_length).
      unfold bind at 1. unfold lift at 1.
      rewrite (getitem_nth _ _ []) by exact Hi.
      unfold lift at 1. rewrite broadcast_same_length
        by (now rewrite length_map, point_length).
      exact Hrun.
    + split; [exact HX|]. intros c Hc. rewrite (Hcoord c Hc).
      cbn [map]. rewrite Rsum_cons. unfold step.
      rewrite nth_zip_with
        by (rewrite ?length_map, ?point_length; auto; lia).
      rewrite (nth_map_lt _ _ _ _ 0) by (rewrite point_length; auto).
      real_ops. lra.
Qed.

(** The target is the convex combination of the points. *)
Lemma x_runs (w : World) :
  exists X,
    Caratheodory.x n T weights w = Ok (X, w) /\
    length X = n /\
    forall c, (c < n)%nat ->
      nth c X 0
      = big_sum (fun i => nth i weights 0 * nth c (nth i T []) 0) (length T).
Proof.
  destruct (x_loop (seq 0 (length T)) (np_zeros n) w) as (X & Hrun & HX & Hc).
  - apply repeat_length.
  - apply Forall_forall. intros i Hi. apply in_seq in Hi. lia.
  - exists X. split.
    + unfold Caratheodory.x, range. rewrite Nat2Z.id. exact Hrun.
    + split; [exact HX|]. intros c Hcn. rewrite (Hc c Hcn).
      unfold np_zeros. rewrite nth_repeat, Rsum_map_seq. real_ops. lra.
Qed.

(** The distance the diameter cell computes for a pair of points. *)
Lemma pair_distance (u v : list R) :
  fsqrt (np_sum (map pow2 (zip_with fsub u v))) = R_sqrt.sqrt (sq_dist u v).
Proof.
  real_ops. f_equal. rewrite np_sum_Rsum. unfold sq_dist, zip_with.
  now rewrite map_map.
Qed.


Lemma sq_dist_sym (u v : list R) : sq_dist u v = sq_dist v u.
Proof.
  unfold sq_dist. revert v. induction u as [|a u IH]; intros [|b v];
    try reflexivity.
  cbn [combine map fst snd]. rewrite !Rsum_cons, IH. ring.
Qed.

Lemma sq_dist_self (u : list R) : sq_dist u u = 0.
Proof.
  unfold sq_dist. induction u as [|a u IH].
  - reflexivity.
  - cbn [combine map fst snd]. rewrite Rsum_cons, IH. ring.
Qed.

(** One comparison of the diameter cell. *)
Lemma diam_step (i j : nat) (d : R) (w : World) :
  (i < length T)%nat -> (j < length T)%nat ->
  (Ti <- lift (Caratheodory.getitem T i) ;;
   Tj <- lift (Caratheodory.getitem T j) ;;
   d0 <- lift (broadcast fsub Ti Tj) ;;
   let d_xixj := fsqrt (np_sum (map pow2 d0)) in
   ret (if fltb d d_xixj then d_xixj else d)) w
  = Ok (if Rlt_dec d (R_sqrt.sqrt (sq_dist (nth i T []) (nth j T [])))
        then R_sqrt.sqrt (sq_dist (nth i T []) (nth j T []))
        else d, w).
Proof.
  clear weights weights_length.
  intros Hi Hj. unfold bind at 1. unfold lift at 1.
  rewrite (getitem_nth _ _ []) by exact Hi.
  unfold bind at 1. unfold lift at 1.
  rewrite (getitem_nth _ _ []) by exact Hj.
  unfold bind at 1. unfold lift at 1.
  rewrite broadcast_same_length by (now rewrite !point_length).
  cbv zeta. rewrite pair_distance. cbn [ret]. real_ops.
  now destruct (Rlt_dec d _).
Qed.

(** The inner loop of the diameter cell, for the first point [T[i]]. *)
Lemma diam_inner (i : nat) (js : list nat) :
  (i < length T)%nat ->
  forall (d : R) (w : World),
    Forall (fun j => (j < length T)%nat) js ->
    exists d',
      for_each js
        (fun j diamT =>
           Ti <- lift (Caratheodory.getitem T i) ;;
           Tj <- lift (Caratheodory.getitem T j) ;;
           d <- lift (broadcast fsub Ti Tj) ;;
           let d_xixj := fsqrt (np_sum (map pow2 d)) in
           ret (if fltb diamT d_xixj then d_xixj else diamT))
        d w
      = Ok (d', w) /\
      d <= d' /\
      (forall j, In j js ->
                 R_sqrt.sqrt (sq_dist (nth i T []) (nth j T [])) <= d') /\
      (d' = d \/
       exists j, (j < length T)%nat /\
                 d' = R_sqrt.sqrt (sq_dist (nth i T []) (nth j T []))).
Proof.
  clear weights weights_length.
  intros Hi. induction js as [|j js IH]; intros d w Hjs.
  - exists d. split; [reflexivity|]. split; [lra|].
    split; [intros j [] | now left].
  - apply Forall_cons_iff in Hjs as [Hj Hrest].
    set (dij := R_sqrt.sqrt (sq_dist (nth i T []) (nth j T []))).
    set (d1 := if Rlt_dec d dij then dij else d).
    destruct (IH d1 w Hrest) as (d' & Hrun & Hle & Hall & Hatt).
    exists d'. split.
    + pose proof (diam_step i j d w Hi Hj) as Hstep. cbv zeta in Hstep.
      cbn [for_each]. unfold bind at 1. cbv beta.
      rewrite Hstep. exact Hrun.
    + assert (Hd1 : d <= d1 /\ dij <= d1).
      { unfold d1. destruct (Rlt_dec d dij); lra. }
      split; [lra|]. split.
      * intros j' [<- | Hin]; [fold dij; lra | now apply Hall].
      * destruct Hatt as [-> | Hex]; [|now right].
        unfold d1. destruct (Rlt_dec d dij); [right | now left].
        exists j. now split.
Qed.

(** The whole cell, over the first points [firsts]. *)
Lemma diam_outer (firsts : list nat) :
  forall (d : R) (w : World),
    Forall (fun i => (i < length T)%nat) firsts ->
    exists d',
      for_each firsts
        (fun i diamT =>
           for_each (seq (i + 1) (length T - (i + 1)))
             (fun j diamT =>
                Ti <- lift (Caratheodory.getitem T i) ;;
                Tj <- lift (Caratheodory.getitem T j) ;;
                d <- lift (broadcast fsub Ti Tj) ;;
                let d_xixj := fsqrt (np_sum (map pow2 d)) in
                ret (if fltb diamT d_xixj then d_xixj else diamT))
             diamT)
        d w
      = Ok (d', w) /\
      d <= d' /\
      (forall i j, In i firsts -> (i < j < length T)%nat ->
                   R_sqrt.sqrt (sq_dist (nth i T []) (nth j T [])) <= d') /\
      (d' = d \/
       exists i j, (i < length T)%nat /\ (j < length T)%nat /\
                   d' = R_sqrt.sqrt (sq_dist (nth i T []) (nth j T []))).
Proof.
  clear weights weights_length.
  induction firsts as [|i firsts IH]; intros d w His.
  - exists d. split; [reflexivity|]. split; [lra|].
    split; [intros i j [] | now left].
  - apply Forall_cons_iff in His as [Hi Hrest].
    destruct (diam_inner i (seq (i + 1) (length T - (i + 1))) Hi d w)
      as (d1 & Hrun1 & Hle1 & Hall1 & Hatt1).
    { apply Forall_forall. intros j Hj. apply in_seq in Hj. lia. }
    destruct (IH d1 w Hrest) as (d' & Hrun & Hle & Hall & Hatt).
    exists d'. split.
    + cbv zeta in Hrun1.
      cbn [for_each]. unfold bind at 1. cbv beta.
      rewrite Hrun1. exact Hrun.
    + split; [lra|]. split.
      * intros i' j [<- | Hin] Hij; [|now apply Hall].
        assert (R_sqrt.sqrt (sq_dist (nth i T []) (nth j T [])) <= d1).
        { apply Hall1. apply in_seq. lia. }
        lra.
      * destruct Hatt as [-> | Hex]; [|now right].
        destruct Hatt1 as [-> | (j & Hj & ->)]; [now left | right].
        exists i, j. now repeat split.
Qed.

(** [diamT] is the largest distance between two points of [T]. *)
Lemma diamT_runs (w : World) :
  T <> [] ->
  exists D,
    Caratheodory.diamT T w = Ok (D, w) /\
    0 <= D /\
    (forall i j, (i < length T)%nat -> (j < length T)%nat ->
                 R_sqrt.sqrt (sq_dist (nth i T []) (nth j T [])) <= D) /\
    (exists i j, (i < length T)%nat /\ (j < length T)%nat /\
                 D = R_sqrt.sqrt (sq_dist (nth i T []) (nth j T []))).
Proof.
  clear weights weights_length.
  intros Hne.
  destruct (diam_outer (seq 0 (length T)) 0 w)
    as (D & Hrun & Hle & Hall & Hatt).
  { apply Forall_forall. intros i Hi. apply in_seq in Hi. lia. }
  exists D. split.
  { unfold Caratheodory.diamT, range. rewrite Nat2Z.id. exact Hrun. }
  split; [exact Hle|]. split.
  - intros i j Hi Hj.
    destruct (Nat.lt_trichotomy i j) as [Hlt | [-> | Hgt]].
    + apply Hall; [apply in_seq; lia | lia].
    + rewrite sq_dist_self, sqrt_0. exact Hle.
    + rewrite sq_dist_sym. apply Hall; [apply in_seq; lia | lia].
  - destruct Hatt as [-> | Hex]; [|exact Hex].
    assert (0 < length T)%nat.
    { destruct T; [congruence | cbn; lia]. }
    exists O, O. rewrite sq_dist_self, sqrt_0. now repeat split.
Qed.


End TargetAndDiameter.

(** * The bound of the approximate Caratheodory theorem *)

Section CaratheodoryBound.
Local Open Scope R_scope.
Context (n : nat) (T : list (list R)) (weights : list R) (k : Z).
Hypothesis T_dimension : Forall (fun p => length p = n) T.
Hypothesis weights_length : length weights = length T.
Hypothesis weights_nonneg : Forall (fun a => 0 <= a) weights.
Hypothesis weights_total : np_sum weights = 1.
Hypothesis k_positive : (1 <= k)%Z.

Lemma T_nonempty : T <> [].
Proof.
  exact (weighted_points_exist T weights weights_length weights_total).
Qed.

Lemma weights_sum_one :
  big_sum (fun i => nth i weights 0) (length weights) = 1.
Proof. now rewrite <- Rsum_big_sum, <- np_sum_Rsum. Qed.

Lemma weight_nonneg i : 0 <= nth i weights 0.
Proof.
  destruct (lt_dec i (length weights)) as [Hi | Hi].
  - rewrite Forall_forall in weights_nonneg.
    now apply weights_nonneg, nth_In.
  - rewrite nth_overflow by lia. lra.
Qed.

Lemma outcome_at_tape (outcome : list nat) :
  outcome_at (tape_env outcome) world0 (length outcome) = outcome.
Proof.
  unfold outcome_at. cbn [choice tape_env choice_calls world0 Nat.add].
  induction outcome as [|i l IH]; [reflexivity|].
  cbn [length seq map nth]. f_equal.
  rewrite <- seq_shift, map_map. exact IH.
Qed.





End CaratheodoryBound.

(** * The notebook's own data *)

Section NotebookData.
Local Open Scope R_scope.

Lemma notebook_T_nonempty : notebook_T <> [].
Proof. discriminate. Qed.

Lemma notebook_T_dimension : Forall (fun p => length p = 3%nat) notebook_T.
Proof. repeat constructor. Qed.

Lemma quarter_weights_nonneg : Forall (fun a => 0 <= a) quarter_weights.
Proof. repeat constructor; lra. Qed.

Lemma quarter_weights_total : np_sum quarter_weights = 1.
Proof. unfold np_sum, quarter_weights. cbn. lra. Qed.

Lemma half_env_choice j : (choice half_env j < length notebook_T)%nat.
Proof.
  cbn [choice half_env notebook_T length]. apply Nat.mod_upper_bound. lia.
Qed.

End NotebookData.



Lemma demo_env_choice j : (choice demo_env j < length float_T)%nat.
Proof.
  cbn [choice demo_env float_T length]. apply Nat.mod_upper_bound. lia.
Qed.

Lemma float_T_dimension : Forall (fun p => length p = 3%nat) float_T.
Proof. repeat constructor. Qed.

Lemma float_T_nonempty : float_T <> [].
Proof. discriminate. Qed.

Lemma best_tracks_minimum_witness :
  float_T <> [] /\
  Forall (fun p => length p = 3%nat) float_T /\
  length float_x = 3%nat /\
  length float_weights = length float_T /\
  (forall j, (choice demo_env j < length float_T)%nat) /\
  (1 <= 3)%Z /\
  let N := Z.to_nat 3 in
  let results :=
    trial_results demo_env float_T float_weights float_x 5 world0 N in
  let st := record_all results Caratheodory.loop0 in
  let d := (of_Z 0, []) in
  Caratheodory.trials demo_env float_T float_weights float_x 5 3 world0
  = Ok (st, choice_advance world0 (N * Z.to_nat 5)) /\
  (forall i, (i < N)%nat ->
     Caratheodory.sample_from_distribution demo_env float_T float_weights
       float_x 5 (choice_advance world0 (i * Z.to_nat 5))
     = Ok (nth i results d, choice_advance world0 (S i * Z.to_nat 5))) /\
  Caratheodory.samples st = map fst results /\
  Z.of_nat (length (Caratheodory.samples st)) = 3%Z /\
  Forall (fun s => Caratheodory.lt_best s (Caratheodory.bestVal st) = false)
         (Caratheodory.samples st) /\
  ((Forall (fun s => flt_inf s = false) (Caratheodory.samples st) /\
    Caratheodory.bestVal st = PosInf /\ Caratheodory.best st = None)
   \/
   (exists i,
       (i < N)%nat /\
       Caratheodory.bestVal st = Finite (fst (nth i results d)) /\
       Caratheodory.best st = Some (snd (nth i results d)) /\
       flt_inf (fst (nth i results d)) = true /\
       In (fst (nth i results d)) (Caratheodory.samples st))) /\
  (forall i, (i < N)%nat ->
     let before := record_all (firstn i results) Caratheodory.loop0 in
     let after := record_all (firstn (S i) results) Caratheodory.loop0 in
     let r := nth i results d in
     Caratheodory.trials demo_env float_T float_weights float_x 5
                         (Z.of_nat i) world0
     = Ok (before, choice_advance world0 (i * Z.to_nat 5)) /\
     Caratheodory.trials demo_env float_T float_weights float_x 5
                         (Z.of_nat (S i)) world0
     = Ok (after, choice_advance world0 (S i * Z.to_nat 5)) /\
     Caratheodory.samples after
     = (Caratheodory.samples before ++ [fst r])%list /\
     (Caratheodory.lt_best (fst r) (Caratheodory.bestVal before) = true ->
      Caratheodory.bestVal after = Finite (fst r) /\
      Caratheodory.best after = Some (snd r)) /\
     (Caratheodory.lt_best (fst r) (Caratheodory.bestVal before) = false ->
      Caratheodory.bestVal after = Caratheodory.bestVal before /\
      Caratheodory.best after = Caratheodory.best before)).
Proof.
  split; [exact float_T_nonempty|].
  split; [exact float_T_dimension|].
  split; [reflexivity|]. split; [reflexivity|].
  split; [exact demo_env_choice|]. split; [lia|].
  apply (best_tracks_minimum demo_env 3 float_T float_weights float_x 5
           float_T_nonempty float_T_dimension eq_refl eq_refl
           demo_env_choice 3 world0).
  lia.
Defined.

(** C5 as stated fails in the code's doubles.  For the points [2**700] and
    [-2**700] with equal weights the target is [0]; with [k = 1] every
    trial's distance is [(2**700)**2], which overflows to infinity; no
    [sample < bestVal] holds, and after three trials [best] is still
    [None]: no draw is returned. *)
Lemma best_may_stay_unset :
  Caratheodory.x 1 far_T half_weights world0 = Ok ([0%float], world0) /\
  Caratheodory.trials (with_choice demo_env (fun j => (j mod 2)%nat))
                      far_T half_weights [0%float] 1 3 world0
  = Ok ({| Caratheodory.samples := [infinity; infinity; infinity];
           Caratheodory.bestVal := PosInf;
           Caratheodory.best := None |},
        choice_advance world0 3) /\
  ~ (exists st w' vectors,
        Caratheodory.trials (with_choice demo_env (fun j => (j mod 2)%nat))
                            far_T half_weights [0%float] 1 3 world0
        = Ok (st, w') /\
        Caratheodory.best st = Some vectors).
Proof.
  split; [reflexivity|]. split; [reflexivity|].
  intros (st & w' & vectors & H & Hb). vm_compute in H.
  injection H as <- _. discriminate Hb.
Qed.

Lemma single_draw_trial_witness :
  Forall (fun p => length p = 3%nat) notebook_T /\
  length centre = 3%nat /\
  length quarter_weights = length notebook_T /\
  Forall (fun a => (0 <= a)%R) quarter_weights /\
  np_sum quarter_weights = 1%R /\
  (forall (env : Env R) (w : World),
      (choice env (choice_calls w) < length notebook_T)%nat ->
      let p := nth (choice env (choice_calls w)) notebook_T [] in
      In p notebook_T /\
      Caratheodory.sample_from_distribution env notebook_T quarter_weights
                                            centre 1 w
      = Ok ((sq_dist centre p, [p]), tick_choice w)) /\
  exists closest,
    can_draw quarter_weights closest /\
    (forall i, can_draw quarter_weights i ->
               (sq_dist centre (nth closest notebook_T [])
                <= sq_dist centre (nth i notebook_T []))%R) /\
    (forall (env : Env R) (w : World),
        can_draw quarter_weights (choice env (choice_calls w)) ->
        exists d vectors w',
          Caratheodory.sample_from_distribution env notebook_T
                                                quarter_weights centre 1 w
          = Ok ((d, vectors), w') /\
          (sq_dist centre (nth closest notebook_T []) <= d)%R) /\
    (exists env : Env R,
        can_draw quarter_weights (choice env (choice_calls world0)) /\
        Caratheodory.sample_from_distribution env notebook_T quarter_weights
                                              centre 1 world0
        = Ok ((sq_dist centre (nth closest notebook_T []),
               [nth closest notebook_T []]),
              tick_choice world0)).
Proof.
  split; [exact notebook_T_dimension|].
  split; [reflexivity|]. split; [reflexivity|].
  split; [exact quarter_weights_nonneg|].
  split; [exact quarter_weights_total|].
  exact (single_draw_trial 3 notebook_T quarter_weights centre
           notebook_T_dimension eq_refl eq_refl
           quarter_weights_nonneg quarter_weights_total).
Defined.

(** The notebook's cells run in binary64 on its four points with [k = 5]:
    the weights, the target (their first three entries), the diameter (the
    square root of 2) and two trials. *)
Example notebook_runs :
  (c <- Caratheodory.coefficients demo_env 4 ;;
   x <- Caratheodory.x 3 [[1; 0; 0]; [0; 1; 0]; [0; 0; 1]; [0; 0; 0]]%float c ;;
   d <- Caratheodory.diamT [[1; 0; 0]; [0; 1; 0]; [0; 0; 1]; [0; 0; 0]]%float ;;
   l <- Caratheodory.trials demo_env
          [[1; 0; 0]; [0; 1; 0]; [0; 0; 1]; [0; 0; 0]]%float c x 5 2 ;;
   ret (x, d, Caratheodory.samples l, Caratheodory.bestVal l)) world0
  = Ok (([0.421875; 0.140625; 0.1875]%float,
         0x1.6a09e667f3bcdp+0%float,
         [0x1.10a3d70a3d70bp-8; 0x1.ddd70a3d70a3ep-4]%float,
         Finite 0x1.10a3d70a3d70bp-8%float),
        {| rng_calls := 0; next_id := 0; perm_calls := 1;
           uniform_calls := 3; choice_calls := 10 |}).
Proof. vm_compute. reflexivity. Qed.

(** * Further properties of [RandomVector] and [square_norm_expectation] *)

Section ConstructorEdges.
Context {F : Type} {AF : Arith F} (env : Env F).

Lemma create_nonpositive dim name mean variance w :
  (dim <= 0)%Z ->
  RandomVector.create env dim name mean variance w = Raise AssertionError.
Proof.
  intros Hd.
  unfold RandomVector.create, RandomVector.__init__, RandomVector.new.
  unfold bind at 1. unfold bind at 1.
  assert (E : (0 <? dim)%Z = false) by (apply Z.ltb_ge; exact Hd).
  rewrite E. reflexivity.
Qed.

(** A dimension that is not positive is refused before anything else is
    looked at: the constructor raises [AssertionError] whatever the
    distribution name, the mean and the variance are. *)
Theorem nonpositive_dim_rejected
        (dim : Z) (name : string) (mean variance : F) (w : World) :
  (dim <= 0)%Z ->
  RandomVector.create env dim name mean variance w = Raise AssertionError.
Proof. apply create_nonpositive. Qed.

Lemma repeat_call_raise {A} (c : M A) (e : exn) n w :
  c w = Raise e -> repeat_call (S n) c w = Raise e.
Proof. intros H. cbn [repeat_call]. unfold bind at 1. now rewrite H. Qed.

(** With at least one sample asked for, [square_norm_expectation] fails the
    way its first construction fails: whatever exception
    [RandomVector(dim, distribution, mean, variance)] raises comes out of
    the function unchanged. *)
Theorem square_norm_expectation_propagates
        (m dim : Z) (name : string) (mean variance : F) (w : World)
        (e : exn) :
  (0 < m)%Z ->
  RandomVector.create env dim name mean variance w = Raise e ->
  square_norm_expectation env m dim name mean variance w = Raise e.
Proof.
  intros Hm He.
  destruct (Z.to_nat m) as [|n] eqn:E; [lia|].
  unfold square_norm_expectation. unfold bind at 1.
  now rewrite E, repeat_call_raise with (e := e).
Qed.

(** A negative sample count is not refused either: no instance is made, no
    randomness is used, and the integer [0] that [sum] returns is divided by
    [m]. *)
Theorem square_norm_expectation_negative_samples
        (m dim : Z) (name : string) (mean variance : F) (w : World) :
  (m < 0)%Z ->
  square_norm_expectation env m dim name mean variance w
  = Ok (fdiv (of_Z 0) (of_Z m), w).
Proof.
  intros Hm. unfold square_norm_expectation.
  replace (Z.to_nat m) with O by lia.
  cbn [repeat_call]. unfold bind, ret. cbn [frozenset fold_left map_m].
  unfold ret, lift. cbn [py_sum fold_left py_truediv].
  assert (E : (m =? 0)%Z = false) by (apply Z.eqb_neq; lia).
  now rewrite E.
Qed.

End ConstructorEdges.

Lemma nonpositive_dim_rejected_witness :
  (0 <= 0)%Z /\
  RandomVector.create demo_env 0 "wald" 10%float 4%float world0
  = Raise AssertionError.
Proof.
  split; [lia|].
  apply (nonpositive_dim_rejected demo_env 0 "wald"%string 10%float 4%float
           world0).
  lia.
Defined.

Lemma square_norm_expectation_propagates_witness :
  (0 < 3)%Z /\
  RandomVector.create demo_env 2 "cauchy" 10%float 4%float world0
  = Raise AttributeError /\
  square_norm_expectation demo_env 3 2 "cauchy" 10%float 4%float world0
  = Raise AttributeError.
Proof.
  split; [lia|]. split; [reflexivity|].
  apply (square_norm_expectation_propagates demo_env 3 2 "cauchy"%string
           10%float 4%float world0 AttributeError); [lia | reflexivity].
Defined.

Lemma square_norm_expectation_negative_samples_witness :
  ((-2) < 0)%Z /\
  square_norm_expectation demo_env (-2) 2 "standard_normal" 10%float 4%float
                          world0
  = Ok (fdiv (of_Z 0) (of_Z (-2)), world0).
Proof.
  split; [lia|].
  apply (square_norm_expectation_negative_samples demo_env (-2) 2
           "standard_normal"%string 10%float 4%float world0).
  lia.
Defined.

(** ** Moments of a constructed vector, over the reals *)

Section ExactMoments.
Local Open Scope R_scope.
Context (env : Env R).

Lemma Rsum_map_affine (a s : R) (l : list R) :
  Rsum (map (fun r => a + s * r) l) = INR (length l) * a + s * Rsum l.
Proof.
  induction l as [|r l IH].
  - unfold Rsum. cbn. lra.
  - cbn [map length]. rewrite !Rsum_cons, IH, S_INR. lra.
Qed.

Lemma Rsum_map_affine_square (a s : R) (l : list R) :
  Rsum (map (fun t => t * t) (map (fun r => a + s * r) l))
  = INR (length l) * (a * a) + 2 * a * s * Rsum l
    + s * s * Rsum (map (fun r => r * r) l).
Proof.
  induction l as [|r l IH].
  - unfold Rsum. cbn. lra.
  - cbn [map length]. rewrite !Rsum_cons, IH, S_INR. ring.
Qed.

Lemma Rsum_repeat (a : R) (n : nat) : Rsum (repeat a n) = INR n * a.
Proof.
  induction n as [|n IH]; [unfold Rsum; cbn; lra|].
  cbn [repeat]. rewrite Rsum_cons, IH, S_INR. ring.
Qed.

Lemma Rsum_nonneg (l : list R) : Forall (fun a => 0 <= a) l -> 0 <= Rsum l.
Proof.
  induction 1 as [|a l Ha _ IH]; [unfold Rsum; cbn; lra|].
  rewrite Rsum_cons. lra.
Qed.

Lemma norm_squared_of_nonneg (v : RandomVector.t R) : 0 <= norm_squared_of v.
Proof.
  unfold norm_squared_of. destruct (RandomVector.components v) as [c|]; [|lra].
  apply Rsum_nonneg, Forall_map, Forall_forall. intros t _.
  apply Rle_0_sqr.
Qed.

Lemma norm_squared_runs (v : RandomVector.t R) (w : World) :
  len_invariant v ->
  exists nv, RandomVector.norm_squared v w = Ok (nv, w) /\
             to_float nv = norm_squared_of v.
Proof.
  intros (d & c & _ & Hc & _).
  unfold RandomVector.norm_squared, RandomVector.get_components, bind,
    norm_squared_of.
  rewrite Hc. cbn [ret]. eexists. split; [reflexivity|].
  now rewrite to_float_py_sum, map_map.
Qed.

Lemma raw_length w name dim :
  (0 < dim)%Z ->
  INR (length (raw_samples (entropy env (rng_calls w)) name dim)) = IZR dim.
Proof.
  intros Hd. rewrite INR_IZR_INZ. f_equal.
  apply raw_samples_length. lia.
Qed.

Lemma norm_squared_of_built w dim name mean variance :
  norm_squared_of (built env w dim name mean variance)
  = Rsum (map (fun t => t * t)
              (map (fun r => mean + R_sqrt.sqrt variance * r)
                   (raw_samples (entropy env (rng_calls w)) name dim))).
Proof. reflexivity. Qed.

(** The mean of a constructed vector is the affine image of the mean of its
    raw samples: [mean + sqrt(variance) * raw.mean()]. *)
Theorem mean_of_constructed
        (dim : Z) (name : string) (mean variance : R) (w : World) :
  (0 < dim)%Z ->
  recognized name = true ->
  let raw := raw_samples (entropy env (rng_calls w)) name dim in
  exists v w',
    RandomVector.create env dim name mean variance w = Ok (v, w') /\
    RandomVector.mean v w'
    = Ok (mean + R_sqrt.sqrt variance * np_mean raw, w').
Proof.
  intros Hd Hn raw. do 2 eexists.
  split; [now apply create_recognized|].
  unfold RandomVector.mean, RandomVector.get_components, bind.
  cbn [built RandomVector.components ret]. fold raw.
  unfold ret. f_equal. f_equal. unfold np_mean, affine.
  rewrite !np_sum_Rsum.
  real_ops. rewrite length_map, Rsum_map_affine.
  rewrite <- !INR_IZR_INZ. unfold raw. rewrite (raw_length w name dim Hd).
  field. apply not_0_IZR. lia.
Qed.

(** The squared norm of a constructed vector of non-negative variance splits
    into [dim * mean**2], a cross term, and [variance] times the squared norm
    of the raw samples. *)
Theorem norm_squared_of_constructed
        (dim : Z) (name : string) (mean variance : R) (w : World) :
  (0 < dim)%Z ->
  recognized name = true ->
  0 <= variance ->
  let raw := raw_samples (entropy env (rng_calls w)) name dim in
  exists v w' nv,
    RandomVector.create env dim name mean variance w = Ok (v, w') /\
    RandomVector.norm_squared v w' = Ok (nv, w') /\
    to_float nv
    = IZR dim * (mean * mean)
      + 2 * mean * R_sqrt.sqrt variance * Rsum raw
      + variance * Rsum (map (fun r => r * r) raw).
Proof.
  intros Hd Hn Hv raw.
  destruct (norm_squared_runs (built env w dim name mean variance)
              (tick_rng (tick_id w)) (built_invariant env w dim name mean
                                         variance Hd))
    as (nv & Hrun & Hval).
  exists (built env w dim name mean variance), (tick_rng (tick_id w)), nv.
  split; [now apply create_recognized|]. split; [exact Hrun|].
  rewrite Hval, norm_squared_of_built, Rsum_map_affine_square.
  fold raw. unfold raw at 1. rewrite (raw_length w name dim Hd).
  rewrite (sqrt_sqrt variance Hv). reflexivity.
Qed.

(** With variance 0 the vector is constant: every component is [mean], so
    [mean()] returns [mean] and [norm_squared()] returns [dim * mean**2]. *)
Theorem zero_variance_vector
        (dim : Z) (name : string) (mean : R) (w : World) :
  (0 < dim)%Z ->
  recognized name = true ->
  exists v w' nv,
    RandomVector.create env dim name mean 0 w = Ok (v, w') /\
    RandomVector.components v = Some (repeat mean (Z.to_nat dim)) /\
    RandomVector.mean v w' = Ok (mean, w') /\
    RandomVector.norm_squared v w' = Ok (nv, w') /\
    to_float nv = IZR dim * (mean * mean).
Proof.
  intros Hd Hn.
  set (raw := raw_samples (entropy env (rng_calls w)) name dim).
  assert (Hlen : length raw = Z.to_nat dim).
  { pose proof (raw_samples_length (entropy env (rng_calls w)) name dim
                  (Z.lt_le_incl _ _ Hd)) as H. fold raw in H. lia. }
  assert (Hc : map (affine mean 0) raw = repeat mean (Z.to_nat dim)).
  { rewrite <- Hlen. clear Hlen. induction raw as [|r l IH]; [reflexivity|].
    cbn [map length repeat]. f_equal; [|exact IH].
    unfold affine. real_ops. rewrite sqrt_0. lra. }
  destruct (norm_squared_runs (built env w dim name mean 0)
              (tick_rng (tick_id w))
              (built_invariant env w dim name mean 0 Hd))
    as (nv & Hrun & Hval).
  exists (built env w dim name mean 0), (tick_rng (tick_id w)), nv.
  split; [now apply create_recognized|].
  split; [cbn [built RandomVector.components]; fold raw; now rewrite Hc|].
  split.
  - unfold RandomVector.mean, RandomVector.get_components, bind.
    cbn [built RandomVector.components ret]. fold raw. rewrite Hc.
    unfold ret. f_equal. f_equal. unfold np_mean.
    rewrite np_sum_Rsum, repeat_length.
    real_ops. rewrite <- INR_IZR_INZ.
    rewrite Rsum_repeat. field. apply not_0_INR. lia.
  - split; [exact Hrun|].
    rewrite Hval, norm_squared_of_built, Rsum_map_affine_square.
    fold raw. unfold raw at 1. rewrite (raw_length w name dim Hd).
    rewrite sqrt_0. ring.
Qed.

End ExactMoments.

(** ** The estimate, over the reals *)

Section ExactEstimate.
Local Open Scope R_scope.
Context (env : Env R).

Lemma Rsum_map_const {A} (f : A -> R) (c : R) (l : list A) :
  (forall a, In a l -> f a = c) -> Rsum (map f l) = INR (length l) * c.
Proof.
  induction l as [|a l IH]; intros H; [unfold Rsum; cbn; lra|].
  cbn [map length]. rewrite Rsum_cons, S_INR.
  rewrite IH by (intros b Hb; apply H; now right).
  rewrite (H a) by now left. ring.
Qed.

Lemma Rsum_map_scaled {A} (f g : A -> R) (c : R) (l : list A) :
  (forall a, In a l -> f a = c * g a) ->
  Rsum (map f l) = c * Rsum (map g l).
Proof.
  induction l as [|a l IH]; intros H; [unfold Rsum; cbn; lra|].
  cbn [map]. rewrite !Rsum_cons.
  rewrite IH by (intros b Hb; apply H; now right).
  rewrite (H a) by now left. ring.
Qed.

Lemma drawn_in w n dim name mean variance v :
  In v (drawn env w n dim name mean variance) ->
  exists i, v = built env (advance w i) dim name mean variance.
Proof.
  unfold drawn. intros H. apply in_map_iff in H.
  destruct H as (i & <- & _). now exists i.
Qed.

(** For a variance that is not negative (the square root of a negative one
    is not a number in the code, and neither is the estimate then) the
    estimate is never negative. *)
Theorem estimate_nonnegative
        (m dim : Z) (name : string) (mean variance : R) (w : World) :
  (0 < m)%Z -> (0 < dim)%Z -> recognized name = true ->
  0 <= variance ->
  exists r w',
    square_norm_expectation env m dim name mean variance w = Ok (r, w') /\
    0 <= r.
Proof.
  intros Hm Hd Hn _. do 2 eexists.
  split; [now apply square_norm_expectation_exact|].
  apply Rmult_le_pos.
  - apply Rsum_nonneg, Forall_map, Forall_forall. intros v _.
    apply norm_squared_of_nonneg.
  - left. apply Rinv_0_lt_compat, IZR_lt. exact Hm.
Qed.

Lemma norm_squared_of_built_split w dim name mean variance :
  (0 < dim)%Z -> 0 <= variance ->
  norm_squared_of (built env w dim name mean variance)
  = IZR dim * (mean * mean)
    + 2 * mean * R_sqrt.sqrt variance
      * Rsum (raw_samples (entropy env (rng_calls w)) name dim)
    + variance
      * Rsum (map (fun r => r * r)
                  (raw_samples (entropy env (rng_calls w)) name dim)).
Proof.
  intros Hd Hv.
  rewrite norm_squared_of_built, Rsum_map_affine_square.
  rewrite (raw_length env w name dim Hd), (sqrt_sqrt variance Hv).
  reflexivity.
Qed.

(** With variance 0 the estimate is exactly [dim * mean**2], whatever the
    random source produces. *)
Theorem estimate_zero_variance
        (m dim : Z) (name : string) (mean : R) (w : World) :
  (0 < m)%Z -> (0 < dim)%Z -> recognized name = true ->
  square_norm_expectation env m dim name mean 0 w
  = Ok (IZR dim * (mean * mean), advance w (Z.to_nat m)).
Proof.
  intros Hm Hd Hn.
  rewrite square_norm_expectation_exact by assumption.
  f_equal. f_equal.
  rewrite (Rsum_map_const norm_squared_of (IZR dim * (mean * mean))).
  - rewrite drawn_length, INR_IZR_INZ, Z2Nat.id by lia.
    field. apply not_0_IZR. lia.
  - intros v Hv. apply drawn_in in Hv. destruct Hv as (i & ->).
    rewrite norm_squared_of_built_split by (auto; lra).
    rewrite sqrt_0. ring.
Qed.

(** With mean 0 the estimate scales with the variance: on the same random
    source, the estimate for a variance [v >= 0] is [v] times the estimate
    for variance 1. *)
Theorem estimate_scales_with_variance
        (m dim : Z) (name : string) (variance : R) (w : World) :
  (0 < m)%Z -> (0 < dim)%Z -> recognized name = true ->
  0 <= variance ->
  exists unit w',
    square_norm_expectation env m dim name 0 1 w = Ok (unit, w') /\
    square_norm_expectation env m dim name 0 variance w
    = Ok (variance * unit, w').
Proof.
  intros Hm Hd Hn Hv. do 2 eexists.
  split; [now apply square_norm_expectation_exact|].
  rewrite square_norm_expectation_exact by assumption.
  f_equal. f_equal.
  unfold drawn. rewrite !map_map.
  rewrite (Rsum_map_scaled
             (fun i => norm_squared_of
                         (built env (advance w i) dim name 0 variance))
             (fun i => norm_squared_of
                         (built env (advance w i) dim name 0 1))
             variance).
  - unfold Rdiv. ring.
  - intros i _.
    rewrite !norm_squared_of_built_split by (auto; lra).
    rewrite sqrt_1. ring.
Qed.

End ExactEstimate.

Lemma mean_of_constructed_witness :
  (0 < 2)%Z /\ recognized "standard_normal" = true /\
  let raw := raw_samples (entropy ramp_env (rng_calls world0))
                         "standard_normal" 2 in
  exists v w',
    RandomVector.create ramp_env 2 "standard_normal" 10%R 4%R world0
    = Ok (v, w') /\
    RandomVector.mean v w'
    = Ok ((10 + R_sqrt.sqrt 4 * np_mean raw)%R, w').
Proof.
  split; [lia|]. split; [reflexivity|].
  apply (mean_of_constructed ramp_env 2 "standard_normal"%string 10%R 4%R
           world0); [lia | reflexivity].
Defined.

Lemma norm_squared_of_constructed_witness :
  (0 < 2)%Z /\ recognized "wald" = true /\ (0 <= 4)%R /\
  let raw := raw_samples (entropy ramp_env (rng_calls world0)) "wald" 2 in
  exists v w' nv,
    RandomVector.create ramp_env 2 "wald" 10%R 4%R world0 = Ok (v, w') /\
    RandomVector.norm_squared v w' = Ok (nv, w') /\
    to_float nv
    = (IZR 2 * (10 * 10)
       + 2 * 10 * R_sqrt.sqrt 4 * Rsum raw
       + 4 * Rsum (map (fun r => r * r) raw))%R.
Proof.
  split; [lia|]. split; [reflexivity|]. split; [lra|].
  apply (norm_squared_of_constructed ramp_env 2 "wald"%string 10%R 4%R
           world0); [lia | reflexivity | lra].
Defined.

Lemma zero_variance_vector_witness :
  (0 < 3)%Z /\ recognized "wald" = true /\
  exists v w' nv,
    RandomVector.create ramp_env 3 "wald" 10%R 0%R world0 = Ok (v, w') /\
    RandomVector.components v = Some (repeat 10%R (Z.to_nat 3)) /\
    RandomVector.mean v w' = Ok (10%R, w') /\
    RandomVector.norm_squared v w' = Ok (nv, w') /\
    to_float nv = (IZR 3 * (10 * 10))%R.
Proof.
  split; [lia|]. split; [reflexivity|].
  apply (zero_variance_vector ramp_env 3 "wald"%string 10%R world0);
    [lia | reflexivity].
Defined.

Lemma estimate_nonnegative_witness :
  (0 < 3)%Z /\ (0 < 2)%Z /\ recognized "standard_normal" = true /\
  (0 <= 4)%R /\
  exists r w',
    square_norm_expectation ramp_env 3 2 "standard_normal" (-1)%R 4%R world0
    = Ok (r, w') /\
    (0 <= r)%R.
Proof.
  split; [lia|]. split; [lia|]. split; [reflexivity|]. split; [lra|].
  apply (estimate_nonnegative ramp_env 3 2 "standard_normal"%string (-1)%R
           4%R world0); [lia | lia | reflexivity | lra].
Defined.

Lemma estimate_zero_variance_witness :
  (0 < 3)%Z /\ (0 < 2)%Z /\ recognized "standard_normal" = true /\
  square_norm_expectation ramp_env 3 2 "standard_normal" 10%R 0%R world0
  = Ok ((IZR 2 * (10 * 10))%R, advance world0 (Z.to_nat 3)).
Proof.
  split; [lia|]. split; [lia|]. split; [reflexivity|].
  apply (estimate_zero_variance ramp_env 3 2 "standard_normal"%string 10%R
           world0); [lia | lia | reflexivity].
Defined.

Lemma estimate_scales_with_variance_witness :
  (0 < 3)%Z /\ (0 < 2)%Z /\ recognized "standard_normal" = true /\
  (0 <= 4)%R /\
  exists unit w',
    square_norm_expectation ramp_env 3 2 "standard_normal" 0%R 1%R world0
    = Ok (unit, w') /\
    square_norm_expectation ramp_env 3 2 "standard_normal" 0%R 4%R world0
    = Ok ((4 * unit)%R, w').
Proof.
  split; [lia|]. split; [lia|]. split; [reflexivity|]. split; [lra|].
  apply (estimate_scales_with_variance ramp_env 3 2 "standard_normal"%string
           4%R world0); [lia | lia | reflexivity | lra].
Defined.

(** ** What [__repr__] tells *)

Section Repr.
Context {F : Type} {AF : Arith F}.

Lemma string_of_uint_digits (d : Decimal.uint) :
  all_digits (NilEmpty.string_of_uint d) = true.
Proof. induction d; cbn; auto. Qed.

Lemma show_Z_digits (z : Z) :
  (0 <= z)%Z -> all_digits (RandomVector.show_Z z) = true.
Proof.
  intros Hz. unfold RandomVector.show_Z.
  destruct z as [|p|p]; [reflexivity | | lia].
  cbn [Z.to_int NilEmpty.string_of_int]. apply string_of_uint_digits.
Qed.

Lemma show_Z_injective (a b : Z) :
  RandomVector.show_Z a = RandomVector.show_Z b -> a = b.
Proof.
  unfold RandomVector.show_Z. intros H.
  apply (f_equal NilEmpty.int_of_string) in H.
  rewrite !NilEmpty.isi in H. injection H as H.
  rewrite <- (DecimalZ.of_to a), <- (DecimalZ.of_to b). now f_equal.
Qed.

(** Two strings of digits followed by the same character, not a digit, and
    then anything: the digits and the rests agree. *)
Lemma digits_then_stop (c : Ascii.ascii) (s1 s2 r1 r2 : string) :
  is_digit c = false ->
  all_digits s1 = true -> all_digits s2 = true ->
  (s1 ++ String c r1 = s2 ++ String c r2)%string ->
  s1 = s2 /\ r1 = r2.
Proof.
  intros Hc. revert s2.
  induction s1 as [|a s1 IH]; intros [|b s2] H1 H2 E; cbn in *.
  - injection E as E. now split.
  - injection E as -> E. apply andb_true_iff in H2. destruct H2 as [H2 _].
    congruence.
  - injection E as -> E. apply andb_true_iff in H1. destruct H1 as [H1 _].
    congruence.
  - injection E as -> E.
    apply andb_true_iff in H1. destruct H1 as [_ H1].
    apply andb_true_iff in H2. destruct H2 as [_ H2].
    destruct (IH s2 H1 H2 E) as [-> ->]. now split.
Qed.

Lemma append_cancel_l (p a b : string) :
  (p ++ a = p ++ b)%string -> a = b.
Proof.
  induction p as [|c p IH]; cbn; intros H; [exact H|].
  injection H as H. now apply IH.
Qed.

(** [__repr__] never confuses two instances: the strings it returns for two
    instances of non-negative dimension are equal only when the dimensions
    and the identities are. *)
Theorem repr_tells_instances_apart
        (v1 v2 : RandomVector.t F) (d1 d2 : Z) (w1 w2 : World) :
  RandomVector.dim v1 = Some d1 -> (0 <= d1)%Z ->
  RandomVector.dim v2 = Some d2 -> (0 <= d2)%Z ->
  exists s1 s2,
    RandomVector.__repr__ v1 w1 = Ok (s1, w1) /\
    RandomVector.__repr__ v2 w2 = Ok (s2, w2) /\
    (s1 = s2 <-> d1 = d2 /\ RandomVector.id v1 = RandomVector.id v2).
Proof.
  intros Hd1 Hp1 Hd2 Hp2.
  unfold RandomVector.__repr__. rewrite Hd1, Hd2.
  do 2 eexists. split; [reflexivity|]. split; [reflexivity|].
  split.
  - intros E. cbn [append] in E. injection E as E.
    apply digits_then_stop in E;
      [| reflexivity | now apply show_Z_digits | now apply show_Z_digits].
    destruct E as [Ed E].
    apply show_Z_injective in Ed.
    apply (append_cancel_l "dimensional random vector (id: ") in E.
    apply digits_then_stop in E;
      [| reflexivity | apply show_Z_digits; lia | apply show_Z_digits; lia].
    destruct E as [Ei _]. apply show_Z_injective in Ei. split; [exact Ed|lia].
  - intros [-> ->]. reflexivity.
Qed.

End Repr.

Lemma repr_tells_instances_apart_witness :
  RandomVector.dim (built demo_env world0 3 "wald" 10%float 4%float)
  = Some 3%Z /\ (0 <= 3)%Z /\
  RandomVector.dim (built demo_env (advance world0 1) 3 "wald" 10%float
                          4%float)
  = Some 3%Z /\ (0 <= 3)%Z /\
  exists s1 s2,
    RandomVector.__repr__ (built demo_env world0 3 "wald" 10%float 4%float)
                          world0 = Ok (s1, world0) /\
    RandomVector.__repr__
      (built demo_env (advance world0 1) 3 "wald" 10%float 4%float) world0
    = Ok (s2, world0) /\
    (s1 = s2 <->
     3%Z = 3%Z /\
     RandomVector.id (built demo_env world0 3 "wald" 10%float 4%float)
     = RandomVector.id (built demo_env (advance world0 1) 3 "wald" 10%float
                              4%float)).
Proof.
  split; [reflexivity|]. split; [lia|]. split; [reflexivity|]. split; [lia|].
  apply (repr_tells_instances_apart
           (built demo_env world0 3 "wald" 10%float 4%float)
           (built demo_env (advance world0 1) 3 "wald" 10%float 4%float)
           3 3 world0 world0); [reflexivity | lia | reflexivity | lia].
Defined.

(** The string itself, for the first instance ever made. *)
Example repr_runs :
  RandomVector.__repr__ (built demo_env world0 3 "wald" 10%float 4%float)
                        world0
  = Ok ("a 3-dimensional random vector (id: 0)"%string, world0).
Proof. reflexivity. Qed.

(** * Further properties of the Caratheodory notebook *)

Section CoefficientEdges.
Context {F : Type} {AF : Arith F} (env : Env F).

(** With no index to permute (as for [m = 0]) the cell fails: [perm[-1]]
    raises [IndexError]. *)
Theorem coefficients_of_nothing (m : Z) (w : World) :
  permutation env (perm_calls w) m = [] ->
  Caratheodory.coefficients env m w = Raise IndexError.
Proof.
  intros Hp. unfold Caratheodory.coefficients. unfold bind at 1.
  cbn [Caratheodory.np_random_permutation]. rewrite Hp. reflexivity.
Qed.

(** A single point takes the whole mass: the cell returns [[1.0]] and draws
    no uniform number. *)
Theorem coefficients_of_one_point (w : World) :
  permutation env (perm_calls w) 1 = [0%nat] ->
  Caratheodory.coefficients env 1 w = Ok ([of_Z 1], tick_perm w).
Proof.
  intros Hp. unfold Caratheodory.coefficients. unfold bind at 1.
  cbn [Caratheodory.np_random_permutation]. rewrite Hp. reflexivity.
Qed.

(** One pass through the body of the loop, for any arithmetic. *)
Lemma stick_step_any (c : list F) (accum : F) (i : nat) (w : World) :
  (i < length c)%nat ->
  let u := fadd (of_Z 0)
                (fmul (fsub accum (of_Z 0))
                      (unit_double env (uniform_calls w))) in
  (u <- Caratheodory.np_random_uniform env (of_Z 0) accum ;;
   c' <- lift (Caratheodory.setitem c i u) ;;
   ci <- lift (Caratheodory.getitem c' i) ;;
   ret (c', fsub accum ci)) w
  = Ok ((upd c i u, fsub accum u), tick_uniform w).
Proof.
  intros Hi u. unfold bind at 1. cbn [Caratheodory.np_random_uniform].
  fold u.
  unfold bind at 1. unfold lift at 1. rewrite setitem_upd by assumption.
  unfold bind at 1. unfold lift at 1.
  rewrite (getitem_nth _ _ (of_Z 0)) by (now rewrite upd_length).
  rewrite nth_upd_same by assumption. reflexivity.
Qed.

Lemma stick_loop_any (todo : list nat) :
  forall (c : list F) (accum : F) (w : World),
    Forall (fun i => (i < length c)%nat) todo ->
    exists c' accum',
      for_each todo
        (fun i st =>
           let '(coefficients, accum) := st in
           u <- Caratheodory.np_random_uniform env (of_Z 0) accum ;;
           coefficients <- lift (Caratheodory.setitem coefficients i u) ;;
           c <- lift (Caratheodory.getitem coefficients i) ;;
           ret (coefficients, fsub accum c))
        (c, accum) w
      = Ok ((c', accum'), Nat.iter (length todo) tick_uniform w) /\
      length c' = length c.
Proof.
  induction todo as [|i todo IH]; intros c accum w Hin.
  - exists c, accum. now split.
  - apply Forall_cons_iff in Hin as [Hi Hrest].
    cbn [for_each]. unfold bind at 1.
    rewrite (stick_step_any c accum i w Hi). cbv zeta.
    set (u := fadd (of_Z 0) _).
    destruct (IH (upd c i u) (fsub accum u) (tick_uniform w))
      as (c' & accum' & Hrun & Hlen).
    { now rewrite upd_length. }
    exists c', accum'. rewrite upd_length in Hlen. split; [|exact Hlen].
    rewrite Hrun. cbn [length]. now rewrite Nat.iter_succ_r.
Qed.

(** Whatever the arithmetic, binary64 included: for [m >= 1] the cell
    returns exactly [m] coefficients, after one call of
    [np.random.permutation] and [m - 1] calls of [np.random.uniform]. *)
Theorem coefficients_count (m : Z) (w : World) :
  (1 <= m)%Z ->
  Permutation (permutation env (perm_calls w) m) (range m) ->
  exists c,
    Caratheodory.coefficients env m w
    = Ok (c, Nat.iter (Z.to_nat m - 1) tick_uniform (tick_perm w)) /\
    Z.of_nat (length c) = m.
Proof.
  intros Hm Hperm.
  set (perm := permutation env (perm_calls w) m) in *.
  assert (Hlen : length perm = Z.to_nat m).
  { rewrite (Permutation_length Hperm). unfold range. apply length_seq. }
  assert (Hin : forall i, In i perm -> (i < Z.to_nat m)%nat).
  { intros i Hi. apply (Permutation_in _ Hperm) in Hi.
    unfold range in Hi. apply in_seq in Hi. lia. }
  destruct (exists_last (l := perm)) as (todo & final & Hsplit).
  { intros E. rewrite E in Hlen. cbn in Hlen. lia. }
  rewrite Hsplit in Hin, Hlen. rewrite length_app in Hlen. cbn in Hlen.
  destruct (stick_loop_any todo (repeat (of_Z 0) (Z.to_nat m)) (of_Z 1)
                           (tick_perm w))
    as (c' & accum' & Hrun & Hlen').
  { apply Forall_forall. intros i Hi. rewrite repeat_length.
    apply Hin, in_or_app. now left. }
  rewrite repeat_length in Hlen'.
  exists (upd c' final accum'). split.
  - unfold Caratheodory.coefficients. unfold bind at 1.
    cbn [Caratheodory.np_random_permutation]. fold perm. rewrite Hsplit.
    rewrite removelast_last.
    unfold bind at 1. rewrite Hrun.
    unfold bind at 1. unfold lift at 1. rewrite last_item_snoc.
    unfold lift. rewrite setitem_upd.
    + do 3 f_equal. lia.
    + rewrite Hlen'. apply Hin, in_or_app. right. now left.
  - rewrite upd_length. lia.
Qed.

End CoefficientEdges.

Lemma coefficients_of_nothing_witness :
  permutation demo_env (perm_calls world0) 0 = [] /\
  Caratheodory.coefficients demo_env 0 world0 = Raise IndexError.
Proof.
  split; [reflexivity|].
  apply (coefficients_of_nothing demo_env 0 world0). reflexivity.
Defined.

Lemma coefficients_of_one_point_witness :
  permutation demo_env (perm_calls world0) 1 = [0%nat] /\
  Caratheodory.coefficients demo_env 1 world0
  = Ok ([of_Z 1], tick_perm world0).
Proof.
  split; [reflexivity|].
  apply (coefficients_of_one_point demo_env world0). reflexivity.
Defined.

Lemma coefficients_count_witness :
  (1 <= 4)%Z /\
  Permutation (permutation demo_env (perm_calls world0) 4) (range 4) /\
  exists c,
    Caratheodory.coefficients demo_env 4 world0
    = Ok (c, Nat.iter (Z.to_nat 4 - 1) tick_uniform (tick_perm world0)) /\
    Z.of_nat (length c) = 4%Z.
Proof.
  assert (Hp : Permutation (permutation demo_env (perm_calls world0) 4)
                           (range 4)).
  { cbn [permutation demo_env]. symmetry. apply Permutation_rev. }
  split; [lia|]. split; [exact Hp|].
  apply (coefficients_count demo_env 4 world0); [lia | exact Hp].
Defined.

(** ** The sum of the coefficients, in binary64 *)














(** ** The target *)

Section TargetFacts.
Local Open Scope R_scope.
Context (n : nat) (T : list (list R)) (weights : list R).
Hypothesis T_dimension : Forall (fun p => length p = n) T.
Hypothesis weights_length : length weights = length T.
Hypothesis weights_nonneg : Forall (fun a => 0 <= a) weights.
Hypothesis weights_total : np_sum weights = 1.

(** The target the notebook builds is the convex combination of the points:
    it has [n] coordinates, each one the weighted sum of that coordinate
    over [T], and so it lies in every box that holds all the points. *)
Theorem target_in_convex_hull (w : World) :
  exists X,
    Caratheodory.x n T weights w = Ok (X, w) /\
    length X = n /\
    (forall c, (c < n)%nat ->
       nth c X 0
       = big_sum (fun i => nth i weights 0 * nth c (nth i T []) 0)
                 (length T)) /\
    (forall c lo hi, (c < n)%nat ->
       (forall i, (i < length T)%nat -> lo <= nth c (nth i T []) 0 <= hi) ->
       lo <= nth c X 0 <= hi).
Proof.
  destruct (x_runs n T weights T_dimension weights_length w)
    as (X & Hx & HX & Hcoord).
  exists X. split; [exact Hx|]. split; [exact HX|]. split; [exact Hcoord|].
  intros c lo hi Hc Hbox. rewrite (Hcoord c Hc), <- weights_length.
  pose proof (weights_sum_one weights weights_total) as Hone.
  pose proof (weight_nonneg T weights weights_length weights_nonneg) as Hpos.
  split.
  - assert (H : big_sum (fun i => nth i weights 0
                                  * (- nth c (nth i T []) 0))
                        (length weights) <= - lo).
    { apply (weighted_mean_le weights Hone Hpos). intros i Hi.
      rewrite weights_length in Hi. specialize (Hbox i Hi). lra. }
    rewrite (big_sum_ext _
               (fun i => (- 1) * (nth i weights 0 * nth c (nth i T []) 0)))
      in H by (intros; ring).
    rewrite big_sum_scal in H. lra.
  - apply (weighted_mean_le weights Hone Hpos). intros i Hi.
    rewrite weights_length in Hi. specialize (Hbox i Hi). lra.
Qed.

End TargetFacts.

Lemma target_in_convex_hull_witness :
  Forall (fun p => length p = 3%nat) notebook_T /\
  length quarter_weights = length notebook_T /\
  Forall (fun a => (0 <= a)%R) quarter_weights /\
  np_sum quarter_weights = 1%R /\
  exists X,
    Caratheodory.x 3 notebook_T quarter_weights world0 = Ok (X, world0) /\
    length X = 3%nat /\
    (forall c, (c < 3)%nat ->
       nth c X 0%R
       = big_sum (fun i => (nth i quarter_weights 0
                            * nth c (nth i notebook_T []) 0)%R)
                 (length notebook_T)) /\
    (forall c lo hi, (c < 3)%nat ->
       (forall i, (i < length notebook_T)%nat ->
                  (lo <= nth c (nth i notebook_T []) 0 <= hi)%R) ->
       (lo <= nth c X 0 <= hi)%R).
Proof.
  split; [exact notebook_T_dimension|]. split; [reflexivity|].
  split; [exact quarter_weights_nonneg|].
  split; [exact quarter_weights_total|].
  exact (target_in_convex_hull 3 notebook_T quarter_weights
           notebook_T_dimension eq_refl quarter_weights_nonneg
           quarter_weights_total world0).
Defined.

(** ** The diameter *)

(** With fewer than two points there is no pair to measure: the cell leaves
    [diamT] at the integer [0] it starts from, whatever the arithmetic. *)
Theorem diamT_without_pairs {F : Type} {AF : Arith F}
        (T : list (list F)) (w : World) :
  (length T <= 1)%nat ->
  Caratheodory.diamT T w = Ok (of_Z 0, w).
Proof.
  intros H. destruct T as [|p [|q T]]; [reflexivity | reflexivity |].
  cbn in H. lia.
Qed.

Lemma diamT_without_pairs_witness :
  (length [[1; 2; 3]%float] <= 1)%nat /\
  Caratheodory.diamT [[1; 2; 3]%float] world0 = Ok (of_Z 0, world0).
Proof.
  split; [cbn; lia|].
  apply (diamT_without_pairs [[1; 2; 3]%float] world0). cbn. lia.
Defined.

Section DiameterFacts.
Local Open Scope R_scope.

(** The diameter of a set of points is at most that of a set holding them
    all. *)
Lemma diameter_le (n : nat) (T T' : list (list R)) (D D' : R) (w w' : World) :
  Forall (fun p => length p = n) T ->
  Forall (fun p => length p = n) T' ->
  T <> [] ->
  incl T T' ->
  Caratheodory.diamT T w = Ok (D, w) ->
  Caratheodory.diamT T' w' = Ok (D', w') ->
  D <= D'.
Proof.
  intros HT HT' Hne Hincl HD HD'.
  assert (Hne' : T' <> []).
  { destruct T as [|p T]; [congruence|].
    intros E. specialize (Hincl p (or_introl eq_refl)).
    now rewrite E in Hincl. }
  destruct (diamT_runs n T HT w Hne)
    as (D0 & Hrun & _ & _ & i & j & Hi & Hj & E).
  rewrite Hrun in HD. injection HD as <-.
  destruct (diamT_runs n T' HT' w' Hne') as (D1 & Hrun' & _ & Hall & _).
  rewrite Hrun' in HD'. injection HD' as <-.
  destruct (In_nth T' (nth i T []) [] (Hincl _ (nth_In T [] Hi)))
    as (i' & Hi' & Ei).
  destruct (In_nth T' (nth j T []) [] (Hincl _ (nth_In T [] Hj)))
    as (j' & Hj' & Ej).
  rewrite E, <- Ei, <- Ej. now apply Hall.
Qed.

(** Adding points never shrinks the diameter. *)
Theorem diamT_monotone (n : nat) (T T' : list (list R)) (w : World) :
  Forall (fun p => length p = n) T ->
  Forall (fun p => length p = n) T' ->
  T <> [] ->
  incl T T' ->
  exists D D',
    Caratheodory.diamT T w = Ok (D, w) /\
    Caratheodory.diamT T' w = Ok (D', w) /\
    D <= D'.
Proof.
  intros HT HT' Hne Hincl.
  assert (Hne' : T' <> []).
  { destruct T as [|p T]; [congruence|].
    intros E. specialize (Hincl p (or_introl eq_refl)).
    now rewrite E in Hincl. }
  destruct (diamT_runs n T HT w Hne) as (D & Hrun & _).
  destruct (diamT_runs n T' HT' w Hne') as (D' & Hrun' & _).
  exists D, D'. split; [exact Hrun|]. split; [exact Hrun'|].
  exact (diameter_le n T T' D D' w w HT HT' Hne Hincl Hrun Hrun').
Qed.

(** The diameter does not depend on the order in which the points are
    listed. *)
Theorem diamT_order_independent (n : nat) (T T' : list (list R)) (w : World) :
  Forall (fun p => length p = n) T ->
  T <> [] ->
  Permutation T T' ->
  exists D,
    Caratheodory.diamT T w = Ok (D, w) /\
    Caratheodory.diamT T' w = Ok (D, w).
Proof.
  intros HT Hne Hperm.
  assert (HT' : Forall (fun p => length p = n) T').
  { apply (Permutation_Forall Hperm HT). }
  assert (Hne' : T' <> []).
  { intros E. rewrite E in Hperm. apply Permutation_sym in Hperm.
    apply Permutation_nil in Hperm. congruence. }
  destruct (diamT_runs n T HT w Hne) as (D & Hrun & _).
  destruct (diamT_runs n T' HT' w Hne') as (D' & Hrun' & _).
  assert (H1 : D <= D').
  { apply (diameter_le n T T' D D' w w); auto.
    intros p Hp. apply (Permutation_in _ Hperm Hp). }
  assert (H2 : D' <= D).
  { apply (diameter_le n T' T D' D w w); auto.
    intros p Hp. apply (Permutation_in _ (Permutation_sym Hperm) Hp). }
  exists D. split; [exact Hrun|]. rewrite Hrun'. do 2 f_equal. lra.
Qed.

End DiameterFacts.

Lemma diamT_monotone_witness :
  Forall (fun p => length p = 3%nat) (tl notebook_T) /\
  Forall (fun p => length p = 3%nat) notebook_T /\
  tl notebook_T <> [] /\
  incl (tl notebook_T) notebook_T /\
  exists D D',
    Caratheodory.diamT (tl notebook_T) world0 = Ok (D, world0) /\
    Caratheodory.diamT notebook_T world0 = Ok (D', world0) /\
    (D <= D')%R.
Proof.
  assert (H1 : Forall (fun p => length p = 3%nat) (tl notebook_T))
    by (repeat constructor).
  assert (H2 : tl notebook_T <> []) by discriminate.
  assert (H3 : incl (tl notebook_T) notebook_T)
    by (intros p Hp; now right).
  split; [exact H1|]. split; [exact notebook_T_dimension|].
  split; [exact H2|]. split; [exact H3|].
  exact (diamT_monotone 3 (tl notebook_T) notebook_T world0 H1
           notebook_T_dimension H2 H3).
Defined.

Lemma diamT_order_independent_witness :
  Forall (fun p => length p = 3%nat) notebook_T /\
  notebook_T <> [] /\
  Permutation notebook_T (rev notebook_T) /\
  exists D,
    Caratheodory.diamT notebook_T world0 = Ok (D, world0) /\
    Caratheodory.diamT (rev notebook_T) world0 = Ok (D, world0).
Proof.
  split; [exact notebook_T_dimension|]. split; [exact notebook_T_nonempty|].
  split; [apply Permutation_rev|].
  exact (diamT_order_independent 3 notebook_T (rev notebook_T) world0
           notebook_T_dimension notebook_T_nonempty
           (Permutation_rev notebook_T)).
Defined.

(** ** The diameter of points with integer coordinates *)

Lemma wrap64_small (z : Z) :
  (-9223372036854775808 <= z < 9223372036854775808)%Z -> wrap64 z = z.
Proof. intros H. unfold wrap64. rewrite Z.mod_small by lia. lia. Qed.

Lemma for_each_ext {A S} (l : list A) (f g : A -> S -> M S) :
  (forall a st w, In a l -> f a st w = g a st w) ->
  forall st w, for_each l f st w = for_each l g st w.
Proof.
  induction l as [|a l IH]; intros H st w; [reflexivity|].
  cbn [for_each]. unfold bind. rewrite H by now left.
  destruct (g a st w) as [[st' w']|e]; [|reflexivity].
  apply IH. intros a' st0 w0 Ha. apply H. now right.
Qed.

Section IntegerPoints.
Local Open Scope R_scope.
Context (B : Z).

(** While nothing leaves the range of [int64], the sum of the squared
    differences is the same whether it is taken on the integers or on the
    reals. *)
Lemma int64_squares_sum (u : list Z) :
  forall (v : list Z) (acc : Z),
    Forall (fun t => (- B <= t <= B)%Z) u ->
    Forall (fun t => (- B <= t <= B)%Z) v ->
    (0 <= acc)%Z ->
    (acc + Z.of_nat (length u) * (4 * B * B) < 9223372036854775808)%Z ->
    IZR (fold_left (fun a b => wrap64 (a + b))
                   (map (fun t => wrap64 (t * t))
                        (zip_with (fun a b => wrap64 (a - b)) u v))
                   acc)
    = fold_left Rplus
                (map (fun t => t * t)
                     (zip_with Rminus (map IZR u) (map IZR v)))
                (IZR acc).
Proof.
  induction u as [|a u IH]; intros v acc Hu Hv Hacc Hfit; [reflexivity|].
  destruct v as [|b v]; [reflexivity|].
  apply Forall_cons_iff in Hu as [Ha Hu].
  apply Forall_cons_iff in Hv as [Hb Hv].
  cbn [length] in Hfit.
  unfold zip_with. cbn [map combine fold_left fst snd].
  fold (zip_with (fun a b => wrap64 (a - b)) u v).
  fold (zip_with Rminus (map IZR u) (map IZR v)).
  assert (Hsq : (0 <= (a - b) * (a - b) <= 4 * B * B)%Z).
  { split; [apply Z.square_nonneg|].
    assert (0 <= (2 * B - (a - b)) * (2 * B + (a - b)))%Z
      by (apply Z.mul_nonneg_nonneg; lia).
    lia. }
  assert (Hlen : (0 <= Z.of_nat (length u) * (4 * B * B))%Z).
  { apply Z.mul_nonneg_nonneg; [lia|].
    replace (4 * B * B)%Z with ((2 * B) * (2 * B))%Z by ring.
    apply Z.square_nonneg. }
  assert (Hsmall : (2 * B <= 4 * B * B + 1)%Z).
  { pose proof (Z.square_nonneg (2 * B - 1)). lia. }
  rewrite (wrap64_small (a - b)) by lia.
  rewrite (wrap64_small ((a - b) * (a - b))) by lia.
  rewrite (wrap64_small (acc + (a - b) * (a - b))) by lia.
  rewrite IH by (auto; lia).
  now rewrite plus_IZR, mult_IZR, minus_IZR.
Qed.

(** Exact arithmetic, coordinates within [-B .. B] and
    [n * (2 * B) ** 2] below [2 ** 63]: the cell computes for the integer
    points what it computes for the same points given as reals. *)
Theorem diamT_int64_agrees (n : nat) (T : list (list Z)) (w : World) :
  Forall (fun p => length p = n) T ->
  Forall (Forall (fun t => (- B <= t <= B)%Z)) T ->
  (Z.of_nat n * (4 * B * B) < 9223372036854775808)%Z ->
  Caratheodory.diamT_int64 (F := R) T w
  = Caratheodory.diamT (map (map IZR) T) w.
Proof.
  intros HT HB Hfit.
  unfold Caratheodory.diamT_int64, Caratheodory.diamT, range.
  rewrite length_map, Nat2Z.id.
  apply for_each_ext. intros i D w0 Hi. apply in_seq in Hi.
  apply for_each_ext. intros j D' w1 Hj. apply in_seq in Hj.
  assert (Hi' : (i < length T)%nat) by lia.
  assert (Hj' : (j < length T)%nat) by lia.
  rewrite Forall_forall in HT, HB.
  pose proof (HT _ (nth_In T [] Hi')) as Hli.
  pose proof (HT _ (nth_In T [] Hj')) as Hlj.
  pose proof (HB _ (nth_In T [] Hi')) as Hbi.
  pose proof (HB _ (nth_In T [] Hj')) as Hbj.
  unfold bind, lift.
  rewrite (getitem_nth T i []) by exact Hi'.
  rewrite (getitem_nth T j []) by exact Hj'.
  rewrite (getitem_nth (map (map IZR) T) i (map IZR []))
    by (now rewrite length_map).
  rewrite (getitem_nth (map (map IZR) T) j (map IZR []))
    by (now rewrite length_map).
  rewrite !map_nth.
  rewrite !broadcast_same_length by (rewrite ?length_map; congruence).
  unfold ret. do 2 f_equal.
  assert (E : of_Z (fold_left (fun a b => wrap64 (a + b))
                      (map (fun t => wrap64 (t * t))
                           (zip_with (fun a b => wrap64 (a - b))
                                     (nth i T []) (nth j T [])))
                      0%Z)
              = np_sum (map pow2
                            (zip_with fsub (map IZR (nth i T []))
                                      (map IZR (nth j T []))))).
  { apply int64_squares_sum; auto; [lia|]. rewrite Hli. lia. }
  now rewrite E.
Qed.

End IntegerPoints.

Lemma diamT_int64_agrees_witness :
  Forall (fun p => length p = 3%nat) int_T /\
  Forall (Forall (fun t => (- 1 <= t <= 1)%Z)) int_T /\
  (Z.of_nat 3 * (4 * 1 * 1) < 9223372036854775808)%Z /\
  Caratheodory.diamT_int64 (F := R) int_T world0
  = Caratheodory.diamT (map (map IZR) int_T) world0.
Proof.
  assert (H1 : Forall (fun p => length p = 3%nat) int_T).
  { repeat constructor. }
  assert (H2 : Forall (Forall (fun t => (- 1 <= t <= 1)%Z)) int_T).
  { repeat constructor; lia. }
  split; [exact H1|]. split; [exact H2|]. split; [lia|].
  apply (diamT_int64_agrees 1 3 int_T world0 H1 H2). lia.
Defined.

(** The notebook's own points are within that range. *)
Example int_T_as_reals : map (map IZR) int_T = notebook_T.
Proof. reflexivity. Qed.

(** Out of that range the two differ.  The square of 3037000500 is above
    [2 ** 63 - 1]: in [int64] it comes out negative, its square root is NaN,
    no [d_xixj > diamT] holds, and the cell leaves [diamT] at 0 for two
    points that are 3037000500 apart. *)
Example diamT_int64_wraps :
  wrap64 (3037000500 * 3037000500) = (-9223372036709301616)%Z /\
  Caratheodory.diamT_int64 (F := float) [[3037000500]; [0]]%Z world0
  = Ok (0%float, world0) /\
  Caratheodory.diamT [[of_Z 3037000500]; [of_Z 0]] world0
  = Ok (3037000500%float, world0).
Proof. repeat split; reflexivity. Qed.

(** ** Trials, for any arithmetic *)

Section TrialEdges.
Context {F : Type} {AF : Arith F} (env : Env F).

(** A trial refuses weights that are not one per point, before any draw:
    [rand.choices] raises [ValueError]. *)
Theorem trial_rejects_mismatched_weights
        (T : list (list F)) (weights x : list F) (k : Z) (w : World) :
  length weights <> length T ->
  Caratheodory.sample_from_distribution env T weights x k w
  = Raise ValueError.
Proof.
  intros H. unfold Caratheodory.sample_from_distribution. unfold bind at 1.
  unfold Caratheodory.rand_choices.
  apply Nat.eqb_neq in H. now rewrite H.
Qed.

(** Without points there is nothing to draw and no [T[0]] to read the
    dimension from: the trial raises [IndexError] for every [k]. *)
Theorem trial_without_points (x : list F) (k : Z) (w : World) :
  Caratheodory.sample_from_distribution env [] [] x k w = Raise IndexError.
Proof.
  unfold Caratheodory.sample_from_distribution. unfold bind at 1.
  unfold Caratheodory.rand_choices. cbn [length Nat.eqb].
  destruct (Z.to_nat k) as [|n]; [reflexivity|].
  cbn [repeat_call]. unfold bind at 1.
  unfold Caratheodory.draw, Caratheodory.getitem.
  now rewrite nth_error_nil.
Qed.

(** A trial on well-formed data returns, next to the distance, exactly [k]
    points, every one a member of [T], and uses exactly [k] weighted
    draws. *)
Theorem trial_returns_members
        (n : nat) (T : list (list F)) (weights x : list F) (k : Z)
        (w : World) :
  T <> [] ->
  Forall (fun p => length p = n) T ->
  length x = n ->
  length weights = length T ->
  (forall j, (choice env j < length T)%nat) ->
  exists distance vectors,
    Caratheodory.sample_from_distribution env T weights x k w
    = Ok ((distance, vectors), choice_advance w (Z.to_nat k)) /\
    length vectors = Z.to_nat k /\
    Forall (fun p => In p T) vectors /\
    choice_calls (choice_advance w (Z.to_nat k))
    = (choice_calls w + Z.to_nat k)%nat.
Proof.
  intros Hne HT Hx Hw Hc. do 2 eexists. split.
  - apply (sample_from_distribution_runs env n); auto.
    now apply outcome_in_range.
  - split; [|split].
    + unfold picked, outcome_at. now rewrite !length_map, length_seq.
    + unfold picked. apply Forall_map, Forall_forall. intros i Hi.
      apply nth_In. unfold outcome_at in Hi. apply in_map_iff in Hi.
      destruct Hi as (j & <- & _). apply Hc.
    + apply choice_advance_calls.
Qed.

(** A loop of no trials (a count that is zero or negative) leaves the
    variables as they were set: no sample, [bestVal] infinite, [best] still
    [None]. *)
Theorem no_trials
        (T : list (list F)) (weights x : list F) (k numSamples : Z)
        (w : World) :
  (numSamples <= 0)%Z ->
  Caratheodory.trials env T weights x k numSamples w
  = Ok ({| Caratheodory.samples := [];
           Caratheodory.bestVal := PosInf;
           Caratheodory.best := None |}, w).
Proof.
  intros H. unfold Caratheodory.trials, range.
  replace (Z.to_nat numSamples) with O by lia. reflexivity.
Qed.

(** Whatever the arithmetic, binary64 included: on well-formed data the
    loop ends, [samples] holds the distance of every trial in order, one
    per trial, and the loop has used [numSamples * k] weighted draws. *)
Theorem trials_record_every_sample
        (n : nat) (T : list (list F)) (weights x : list F)
        (k numSamples : Z) (w : World) :
  T <> [] ->
  Forall (fun p => length p = n) T ->
  length x = n ->
  length weights = length T ->
  (forall j, (choice env j < length T)%nat) ->
  exists st,
    Caratheodory.trials env T weights x k numSamples w
    = Ok (st, choice_advance w (Z.to_nat numSamples * Z.to_nat k)) /\
    Caratheodory.samples st
    = map fst (trial_results env T weights x k w (Z.to_nat numSamples)) /\
    length (Caratheodory.samples st) = Z.to_nat numSamples /\
    forall i, (i < Z.to_nat numSamples)%nat ->
      Caratheodory.sample_from_distribution env T weights x k
        (choice_advance w (i * Z.to_nat k))
      = Ok ((nth i (Caratheodory.samples st) (of_Z 0),
             picked T (outcome_at env (choice_advance w (i * Z.to_nat k))
                                  (Z.to_nat k))),
            choice_advance w (S i * Z.to_nat k)).
Proof.
  intros Hne HT Hx Hw Hc. eexists. split.
  - apply (trials_run env n); assumption.
  - assert (Hs : Caratheodory.samples
                   (record_all
                      (trial_results env T weights x k w
                                     (Z.to_nat numSamples))
                      Caratheodory.loop0)
                 = map fst (trial_results env T weights x k w
                                          (Z.to_nat numSamples))).
    { now rewrite record_all_samples. }
    split; [exact Hs|]. split.
    + now rewrite Hs, length_map, trial_results_length.
    + intros i Hi. rewrite Hs.
      rewrite (nth_map_lt fst _ i (of_Z 0) (of_Z 0, []))
        by (now rewrite trial_results_length).
      rewrite trial_results_nth by exact Hi.
      destruct (trial_result_runs env n T weights x k
                  (choice_advance w (i * Z.to_nat k)) Hne HT Hx Hw
                  (outcome_in_range env T Hc _ _)) as [Hrun Hval].
      rewrite Hrun, Hval. cbn [fst]. do 2 f_equal.
      cbn [Nat.mul]. rewrite Nat.add_comm. symmetry.
      apply choice_advance_add.
Qed.

End TrialEdges.

Lemma trial_rejects_mismatched_weights_witness :
  length [0.5; 0.5]%float <> length float_T /\
  Caratheodory.sample_from_distribution demo_env float_T [0.5; 0.5]%float
                                        float_x 5 world0
  = Raise ValueError.
Proof.
  split; [discriminate|].
  apply (trial_rejects_mismatched_weights demo_env float_T [0.5; 0.5]%float
           float_x 5 world0).
  discriminate.
Defined.

Lemma trial_returns_members_witness :
  float_T <> [] /\
  Forall (fun p => length p = 3%nat) float_T /\
  length float_x = 3%nat /\
  length float_weights = length float_T /\
  (forall j, (choice demo_env j < length float_T)%nat) /\
  exists distance vectors,
    Caratheodory.sample_from_distribution demo_env float_T float_weights
                                          float_x 5 world0
    = Ok ((distance, vectors), choice_advance world0 (Z.to_nat 5)) /\
    length vectors = Z.to_nat 5 /\
    Forall (fun p => In p float_T) vectors /\
    choice_calls (choice_advance world0 (Z.to_nat 5))
    = (choice_calls world0 + Z.to_nat 5)%nat.
Proof.
  split; [exact float_T_nonempty|]. split; [exact float_T_dimension|].
  split; [reflexivity|]. split; [reflexivity|].
  split; [exact demo_env_choice|].
  exact (trial_returns_members demo_env 3 float_T float_weights float_x 5
           world0 float_T_nonempty float_T_dimension eq_refl eq_refl
           demo_env_choice).
Defined.

Lemma no_trials_witness :
  (0 <= 0)%Z /\
  Caratheodory.trials demo_env float_T float_weights float_x 5 0 world0
  = Ok ({| Caratheodory.samples := [];
           Caratheodory.bestVal := PosInf;
           Caratheodory.best := None |}, world0).
Proof.
  split; [lia|].
  apply (no_trials demo_env float_T float_weights float_x 5 0 world0). lia.
Defined.

Lemma trials_record_every_sample_witness :
  float_T <> [] /\
  Forall (fun p => length p = 3%nat) float_T /\
  length float_x = 3%nat /\
  length float_weights = length float_T /\
  (forall j, (choice demo_env j < length float_T)%nat) /\
  exists st,
    Caratheodory.trials demo_env float_T float_weights float_x 5 3 world0
    = Ok (st, choice_advance world0 (Z.to_nat 3 * Z.to_nat 5)) /\
    Caratheodory.samples st
    = map fst (trial_results demo_env float_T float_weights float_x 5 world0
                             (Z.to_nat 3)) /\
    length (Caratheodory.samples st) = Z.to_nat 3 /\
    forall i, (i < Z.to_nat 3)%nat ->
      Caratheodory.sample_from_distribution demo_env float_T float_weights
        float_x 5 (choice_advance world0 (i * Z.to_nat 5))
      = Ok ((nth i (Caratheodory.samples st) (of_Z 0),
             picked float_T
                    (outcome_at demo_env
                                (choice_advance world0 (i * Z.to_nat 5))
                                (Z.to_nat 5))),
            choice_advance world0 (S i * Z.to_nat 5)).
Proof.
  split; [exact float_T_nonempty|]. split; [exact float_T_dimension|].
  split; [reflexivity|]. split; [reflexivity|].
  split; [exact demo_env_choice|].
  exact (trials_record_every_sample demo_env 3 float_T float_weights float_x
           5 3 world0 float_T_nonempty float_T_dimension eq_refl eq_refl
           demo_env_choice).
Defined.

(** ** Trials, over the reals *)

Section TrialOrder.
Local Open Scope R_scope.
Context (n : nat) (T : list (list R)) (weights x : list R) (k : Z).
Hypothesis T_dimension : Forall (fun p => length p = n) T.
Hypothesis x_dimension : length x = n.
Hypothesis weights_length : length weights = length T.

Lemma trial_on_outcome (outcome : list nat) :
  T <> [] ->
  length outcome = Z.to_nat k ->
  Forall (fun i => (i < length T)%nat) outcome ->
  Caratheodory.sample_from_distribution (tape_env outcome) T weights x k
                                        world0
  = Ok ((big_sum
           (fun c =>
              (nth c x 0
               - Rsum (map (fun i => nth c (nth i T []) 0) outcome) / IZR k)
              * (nth c x 0
                 - Rsum (map (fun i => nth c (nth i T []) 0) outcome)
                   / IZR k)) n,
         picked T outcome),
        choice_advance world0 (Z.to_nat k)).
Proof.
  intros Hne Hlen Hin.
  assert (Hout : outcome_at (tape_env outcome) world0 (Z.to_nat k) = outcome).
  { rewrite <- Hlen. apply outcome_at_tape. }
  pose proof (sample_from_distribution_runs (tape_env outcome) n T weights x k
                world0 Hne T_dimension x_dimension weights_length) as Hrun.
  rewrite Hout in Hrun. rewrite (Hrun Hin).
  rewrite distance_to_big_sum by (auto; now apply picked_lengths).
  do 3 f_equal. apply big_sum_ext. intros c _. cbv zeta.
  unfold picked. now rewrite map_map.
Qed.

(** The distance of a trial depends on which points were drawn and how
    often, not on the order in which they came out. *)
Theorem trial_distance_order_independent (outcome outcome' : list nat) :
  (1 <= k)%Z ->
  length outcome = Z.to_nat k ->
  Forall (fun i => (i < length T)%nat) outcome ->
  Permutation outcome outcome' ->
  exists d,
    Caratheodory.sample_from_distribution (tape_env outcome) T weights x k
                                          world0
    = Ok ((d, picked T outcome), choice_advance world0 (Z.to_nat k)) /\
    Caratheodory.sample_from_distribution (tape_env outcome') T weights x k
                                          world0
    = Ok ((d, picked T outcome'), choice_advance world0 (Z.to_nat k)).
Proof.
  intros Hk Hlen Hin Hperm.
  assert (Hne : T <> []).
  { destruct outcome as [|i l]; [cbn in Hlen; lia|].
    apply Forall_cons_iff in Hin as [Hi _].
    intros E. rewrite E in Hi. cbn in Hi. lia. }
  eexists. split; [now apply trial_on_outcome|].
  rewrite trial_on_outcome; auto.
  - do 3 f_equal. apply big_sum_ext. intros c _.
    rewrite (Rsum_permutation _ _
               (Permutation_map (fun i => nth c (nth i T []) 0) Hperm)).
    reflexivity.
  - now rewrite <- (Permutation_length Hperm).
  - apply (Permutation_Forall Hperm Hin).
Qed.

End TrialOrder.

Section RunningBest.
Local Open Scope R_scope.

Lemma no_higher_refl (a : pyfloat R) : no_higher a a.
Proof. destruct a; cbn; [exact I | lra]. Qed.

Lemma no_higher_trans (a b c : pyfloat R) :
  no_higher a b -> no_higher b c -> no_higher a c.
Proof. destruct a, b, c; cbn; intros; try tauto; lra. Qed.

Lemma record_trial_lowers (st : Caratheodory.Loop) (sample : R)
      (vectors : list (list R)) :
  no_higher (Caratheodory.bestVal
               (Caratheodory.record_trial st sample vectors))
            (Caratheodory.bestVal st).
Proof.
  destruct (record_trial_best st sample vectors) as [Hup Hkeep].
  destruct (Caratheodory.bestVal st) as [|b] eqn:E.
  { destruct (Caratheodory.bestVal
                (Caratheodory.record_trial st sample vectors)); exact I. }
  cbn [below] in Hup, Hkeep.
  destruct (Rlt_dec sample b) as [Hlt | Hge].
  - destruct (Hup Hlt) as [-> _]. cbn. lra.
  - destruct (Hkeep Hge) as [-> _]. cbn. lra.
Qed.

Lemma record_all_lowers (rs : list (R * list (list R))) :
  forall st : Caratheodory.Loop,
    no_higher (Caratheodory.bestVal (record_all rs st))
              (Caratheodory.bestVal st).
Proof.
  induction rs as [|r rs IH]; intros st; [apply no_higher_refl|].
  cbn [record_all fold_left].
  eapply no_higher_trans; [apply IH | apply record_trial_lowers].
Qed.

Context (env : Env R).
Context (n : nat) (T : list (list R)) (weights x : list R) (k : Z).
Hypothesis T_nonempty : T <> [].
Hypothesis T_dimension : Forall (fun p => length p = n) T.
Hypothesis x_dimension : length x = n.
Hypothesis weights_length : length weights = length T.
Hypothesis choice_in_range : forall j, (choice env j < length T)%nat.

(** Running the loop for longer on the same random source only adds samples
    at the end and can only lower [bestVal]. *)
Theorem longer_loop_extends (i j : nat) (w : World) :
  (i <= j)%nat ->
  exists st_i st_j w_i w_j,
    Caratheodory.trials env T weights x k (Z.of_nat i) w = Ok (st_i, w_i) /\
    Caratheodory.trials env T weights x k (Z.of_nat j) w = Ok (st_j, w_j) /\
    Caratheodory.samples st_i = firstn i (Caratheodory.samples st_j) /\
    no_higher (Caratheodory.bestVal st_j) (Caratheodory.bestVal st_i).
Proof.
  intros Hij.
  pose proof (trials_run env n T weights x k T_nonempty T_dimension
                x_dimension weights_length choice_in_range) as Hrun.
  do 4 eexists. split; [apply Hrun|]. split; [apply Hrun|].
  rewrite !Nat2Z.id.
  set (rj := trial_results env T weights x k w j).
  assert (Hpre : trial_results env T weights x k w i = firstn i rj).
  { symmetry. now apply trial_results_firstn. }
  split.
  - rewrite !record_all_samples. cbn [Caratheodory.samples
      Caratheodory.loop0 app]. rewrite Hpre. symmetry. apply firstn_map.
  - rewrite Hpre. rewrite <- (firstn_skipn i rj) at 1.
    unfold record_all at 1. rewrite fold_left_app.
    apply record_all_lowers.
Qed.

End RunningBest.

Lemma trial_distance_order_independent_witness :
  Forall (fun p => length p = 3%nat) notebook_T /\
  length centre = 3%nat /\
  length quarter_weights = length notebook_T /\
  (1 <= 5)%Z /\
  length [0; 1; 2; 3; 0]%nat = Z.to_nat 5 /\
  Forall (fun i => (i < length notebook_T)%nat) [0; 1; 2; 3; 0]%nat /\
  Permutation [0; 1; 2; 3; 0]%nat (rev [0; 1; 2; 3; 0]%nat) /\
  exists d,
    Caratheodory.sample_from_distribution (tape_env [0; 1; 2; 3; 0]%nat)
      notebook_T quarter_weights centre 5 world0
    = Ok ((d, picked notebook_T [0; 1; 2; 3; 0]%nat),
          choice_advance world0 (Z.to_nat 5)) /\
    Caratheodory.sample_from_distribution
      (tape_env (rev [0; 1; 2; 3; 0]%nat))
      notebook_T quarter_weights centre 5 world0
    = Ok ((d, picked notebook_T (rev [0; 1; 2; 3; 0]%nat)),
          choice_advance world0 (Z.to_nat 5)).
Proof.
  assert (Hin : Forall (fun i => (i < length notebook_T)%nat)
                       [0; 1; 2; 3; 0]%nat).
  { cbn [length notebook_T]. repeat constructor; lia. }
  split; [exact notebook_T_dimension|]. split; [reflexivity|].
  split; [reflexivity|]. split; [lia|]. split; [reflexivity|].
  split; [exact Hin|]. split; [apply Permutation_rev|].
  apply (trial_distance_order_independent 3 notebook_T quarter_weights centre
           5 notebook_T_dimension eq_refl eq_refl [0; 1; 2; 3; 0]%nat
           (rev [0; 1; 2; 3; 0]%nat));
    [lia | reflexivity | exact Hin | apply Permutation_rev].
Defined.

Lemma longer_loop_extends_witness :
  notebook_T <> [] /\
  Forall (fun p => length p = 3%nat) notebook_T /\
  length centre = 3%nat /\
  length quarter_weights = length notebook_T /\
  (forall j, (choice half_env j < length notebook_T)%nat) /\
  (1 <= 3)%nat /\
  exists st_i st_j w_i w_j,
    Caratheodory.trials half_env notebook_T quarter_weights centre 5
                        (Z.of_nat 1) world0 = Ok (st_i, w_i) /\
    Caratheodory.trials half_env notebook_T quarter_weights centre 5
                        (Z.of_nat 3) world0 = Ok (st_j, w_j) /\
    Caratheodory.samples st_i = firstn 1 (Caratheodory.samples st_j) /\
    no_higher (Caratheodory.bestVal st_j) (Caratheodory.bestVal st_i).
Proof.
  split; [exact notebook_T_nonempty|]. split; [exact notebook_T_dimension|].
  split; [reflexivity|]. split; [reflexivity|].
  split; [exact half_env_choice|]. split; [lia|].
  apply (longer_loop_extends half_env 3 notebook_T quarter_weights centre 5
           notebook_T_nonempty notebook_T_dimension eq_refl eq_refl
           half_env_choice 1 3 world0).
  lia.
Defined.

(** ** No draw at all, in binary64 *)

Section ZeroDraws.

Lemma sub_nan_r (a b : float) :
  Prim2SF b = S754_nan -> Prim2SF (a - b)%float = S754_nan.
Proof.
  intros H. rewrite FloatAxioms.sub_spec, H. destruct (Prim2SF a); reflexivity.
Qed.

Lemma add_nan_l (a b : float) :
  Prim2SF a = S754_nan -> Prim2SF (a + b)%float = S754_nan.
Proof.
  intros H. rewrite FloatAxioms.add_spec, H. destruct (Prim2SF b); reflexivity.
Qed.

Lemma zero_over_zero : Prim2SF (fdiv (of_Z 0) (of_Z 0)) = S754_nan.
Proof. reflexivity. Qed.

Lemma nan_not_below_infinity (a : float) :
  Prim2SF a = S754_nan -> flt_inf a = false.
Proof.
  intros H. cbn [flt_inf float_arith]. rewrite FloatAxioms.ltb_spec, H.
  reflexivity.
Qed.

Lemma sum_from_nan (l : list float) :
  forall acc, Prim2SF acc = S754_nan ->
              Prim2SF (fold_left fadd l acc) = S754_nan.
Proof.
  induction l as [|y l IH]; intros acc H; [exact H|].
  cbn [fold_left]. apply IH. cbn [fadd float_arith]. now apply add_nan_l.
Qed.

Lemma sum_of_nans (l : list float) :
  l <> [] ->
  Forall (fun y => Prim2SF y = S754_nan) l ->
  Prim2SF (np_sum l) = S754_nan.
Proof.
  intros Hne Hall. destruct l as [|y l]; [congruence|].
  apply Forall_cons_iff in Hall as [Hy _].
  unfold np_sum. cbn [fold_left]. apply sum_from_nan.
  cbn [fadd float_arith]. now apply add_nan_r.
Qed.

Lemma zip_sub_nan (x v : list float) :
  Forall (fun y => Prim2SF y = S754_nan) v ->
  Forall (fun y => Prim2SF y = S754_nan) (map pow2 (zip_with fsub x v)).
Proof.
  intros Hv. revert x. induction Hv as [|b v Hb _ IH]; intros [|a x];
    try constructor.
  - unfold pow2. cbn [fst snd fsub fmul float_arith].
    apply mul_nan_l. now apply sub_nan_r.
  - apply IH.
Qed.

(** The distance of a trial of no draw is NaN. *)
Lemma distance_of_nothing (x : list float) (n : nat) :
  length x = n -> (0 < n)%nat ->
  Prim2SF (distance_to x 0 n []) = S754_nan.
Proof.
  intros Hx Hn. unfold distance_to. cbn [fold_left].
  apply sum_of_nans.
  - destruct x as [|a x]; [cbn in Hx; lia|].
    destruct n as [|m]; [lia|]. discriminate.
  - apply zip_sub_nan. apply Forall_map, Forall_forall. intros s Hs.
    unfold np_zeros in Hs. apply repeat_spec in Hs. subst s.
    exact zero_over_zero.
Qed.

Context (env : Env float).

(** [k = 0] is not refused.  In binary64 every trial then divides zeros by
    zero: it returns no point and a distance that is NaN, which is not below
    anything, so after any number of trials [samples] holds that many NaN
    while [bestVal] is still infinite and [best] still [None]. *)
Theorem zero_draws_never_improve
        (n : nat) (T : list (list float)) (weights x : list float)
        (numSamples : Z) (w : World) :
  T <> [] ->
  Forall (fun p => length p = n) T ->
  length x = n ->
  (0 < n)%nat ->
  length weights = length T ->
  exists d st,
    Caratheodory.sample_from_distribution env T weights x 0 w
    = Ok ((d, []), w) /\
    is_nan d = true /\
    Caratheodory.trials env T weights x 0 numSamples w = Ok (st, w) /\
    Caratheodory.samples st = repeat d (Z.to_nat numSamples) /\
    Caratheodory.bestVal st = PosInf /\
    Caratheodory.best st = None.
Proof.
  intros Hne HT Hx Hn Hw.
  set (d := distance_to x 0 n []).
  assert (Hrun : forall w1,
             Caratheodory.sample_from_distribution env T weights x 0 w1
             = Ok ((d, []), w1)).
  { intros w1.
    apply (sample_from_distribution_runs env n T weights x 0 w1 Hne HT Hx Hw).
    constructor. }
  assert (Hnan : Prim2SF d = S754_nan) by (now apply distance_of_nothing).
  assert (Hloop : forall N a st,
             Caratheodory.bestVal st = PosInf ->
             for_each (seq a N)
               (fun _ st =>
                  ' (sample, vectors) <-
                    Caratheodory.sample_from_distribution env T weights x 0 ;;
                  ret (Caratheodory.record_trial st sample vectors))
               st w
             = Ok ({| Caratheodory.samples :=
                        Caratheodory.samples st ++ repeat d N;
                      Caratheodory.bestVal := PosInf;
                      Caratheodory.best := Caratheodory.best st |}, w)).
  { induction N as [|N IH]; intros a st Hst.
    - cbn [seq for_each repeat ret]. rewrite app_nil_r.
      destruct st as [s b o]. cbn in Hst. now subst b.
    - cbn [seq for_each]. unfold bind at 1. unfold bind at 1.
      rewrite Hrun. cbn [ret].
      assert (E : Caratheodory.record_trial st d []
                  = {| Caratheodory.samples := Caratheodory.samples st ++ [d];
                       Caratheodory.bestVal := PosInf;
                       Caratheodory.best := Caratheodory.best st |}).
      { unfold Caratheodory.record_trial. rewrite Hst.
        cbn [Caratheodory.lt_best].
        rewrite (nan_not_below_infinity d Hnan). now rewrite Hst. }
      rewrite E, IH by reflexivity.
      cbn [Caratheodory.samples Caratheodory.best repeat].
      now rewrite <- app_assoc. }
  exists d. eexists. split; [apply Hrun|].
  split; [now apply is_nan_of_spec|].
  split; [unfold Caratheodory.trials, range; now apply Hloop|].
  now repeat split.
Qed.

End ZeroDraws.

Lemma zero_draws_never_improve_witness :
  float_T <> [] /\
  Forall (fun p => length p = 3%nat) float_T /\
  length float_x = 3%nat /\
  (0 < 3)%nat /\
  length float_weights = length float_T /\
  exists d st,
    Caratheodory.sample_from_distribution demo_env float_T float_weights
                                          float_x 0 world0
    = Ok ((d, []), world0) /\
    is_nan d = true /\
    Caratheodory.trials demo_env float_T float_weights float_x 0 4 world0
    = Ok (st, world0) /\
    Caratheodory.samples st = repeat d (Z.to_nat 4) /\
    Caratheodory.bestVal st = PosInf /\
    Caratheodory.best st = None.
Proof.
  split; [exact float_T_nonempty|]. split; [exact float_T_dimension|].
  split; [reflexivity|]. split; [lia|]. split; [reflexivity|].
  apply (zero_draws_never_improve demo_env 3 float_T float_weights float_x 4
           world0 float_T_nonempty float_T_dimension eq_refl);
    [lia | reflexivity].
Defined.

(** The same loop, evaluated. *)
Example zero_draws_run :
  Caratheodory.trials demo_env float_T float_weights float_x 0 2 world0
  = Ok ({| Caratheodory.samples := [nan; nan];
           Caratheodory.bestVal := PosInf;
           Caratheodory.best := None |}, world0).
Proof. reflexivity. Qed.

(** ** Ill-formed data *)

Section IllFormed.
Context {F : Type} {AF : Arith F} (env : Env F).

Lemma for_each_app {A S} (l1 l2 : list A) (body : A -> S -> M S) :
  forall st w,
    for_each (l1 ++ l2) body st w
    = match for_each l1 body st w with
      | Ok (st', w') => for_each l2 body st' w'
      | Raise e => Raise e
      end.
Proof.
  induction l1 as [|a l1 IH]; intros st w; [reflexivity|].
  cbn [app for_each]. unfold bind.
  destruct (body a st w) as [[st' w']|e]; [apply IH | reflexivity].
Qed.

(** The loop that builds [x] runs through the indices that have both a
    coefficient and a well-shaped point. *)
Lemma x_prefix_runs (n : nat) (T : list (list F)) (coefficients : list F)
      (idxs : list nat) :
  Forall (fun p => length p = n) T ->
  forall (acc : list F) (w : World),
    length acc = n ->
    Forall (fun i => (i < length T)%nat /\ (i < length coefficients)%nat)
           idxs ->
    exists X,
      for_each idxs
        (fun i x =>
           c <- lift (Caratheodory.getitem coefficients i) ;;
           Ti <- lift (Caratheodory.getitem T i) ;;
           lift (broadcast fadd x (map (fmul c) Ti)))
        acc w
      = Ok (X, w) /\
      length X = n.
Proof.
  intros HT. induction idxs as [|i idxs IH]; intros acc w Hacc Hin.
  - exists acc. now split.
  - apply Forall_cons_iff in Hin as [[Hi Hc] Hrest].
    assert (Hp : length (nth i T []) = n).
    { rewrite Forall_forall in HT. now apply HT, nth_In. }
    set (step := zip_with fadd acc
                   (map (fmul (nth i coefficients (of_Z 0))) (nth i T []))).
    assert (Hstep : length step = n).
    { unfold step. rewrite zip_with_length; [exact Hacc|].
      now rewrite length_map, Hp. }
    destruct (IH step w Hstep Hrest) as (X & Hrun & HX).
    exists X. split; [|exact HX].
    cbn [for_each]. unfold bind at 1. unfold bind at 1. unfold lift at 1.
    rewrite (getitem_nth _ _ (of_Z 0)) by exact Hc.
    unfold bind at 1. unfold lift at 1.
    rewrite (getitem_nth _ _ []) by exact Hi.
    unfold lift at 1. rewrite broadcast_same_length
      by (now rewrite length_map, Hp).
    exact Hrun.
Qed.

(** With fewer coefficients than points the cell that builds [x] fails on
    the first point that has none: [coefficients[i]] raises [IndexError]. *)
Theorem target_needs_every_coefficient
        (n : nat) (T : list (list F)) (coefficients : list F) (w : World) :
  Forall (fun p => length p = n) T ->
  (length coefficients < length T)%nat ->
  Caratheodory.x n T coefficients w = Raise IndexError.
Proof.
  intros HT Hlt. unfold Caratheodory.x, range. rewrite Nat2Z.id.
  replace (length T)
    with (length coefficients + S (length T - S (length coefficients)))%nat
    at 1 by lia.
  rewrite seq_app, for_each_app.
  destruct (x_prefix_runs n T coefficients (seq 0 (length coefficients)) HT
                          (np_zeros n) w) as (X & Hrun & _).
  { apply repeat_length. }
  { apply Forall_forall. intros i Hi. apply in_seq in Hi. lia. }
  rewrite Hrun. cbn [seq for_each Nat.add]. unfold bind at 1.
  unfold bind at 1. unfold lift at 1. unfold Caratheodory.getitem at 1.
  assert (E : nth_error coefficients (length coefficients) = None).
  { apply nth_error_None. lia. }
  now rewrite E.
Qed.

Lemma broadcast_mismatch (op : F -> F -> F) (u v : list F) :
  length u <> length v -> length u <> 1%nat -> length v <> 1%nat ->
  broadcast op u v = Raise ValueError.
Proof.
  intros H Hu Hv. unfold broadcast.
  apply Nat.eqb_neq in H. rewrite H.
  destruct u as [|a [|a' u]]; destruct v as [|b [|b' v]];
    cbn in Hu, Hv; try reflexivity; congruence.
Qed.

(** A target whose dimension is neither that of the points nor 1 (numpy
    would stretch such a target) makes the trial fail with [ValueError],
    after its draws. *)
Theorem trial_rejects_other_dimension
        (n : nat) (T : list (list F)) (weights x : list F) (k : Z)
        (w : World) :
  T <> [] ->
  Forall (fun p => length p = n) T ->
  length weights = length T ->
  (forall j, (choice env j < length T)%nat) ->
  length x <> n -> length x <> 1%nat -> n <> 1%nat ->
  Caratheodory.sample_from_distribution env T weights x k w
  = Raise ValueError.
Proof.
  intros Hne HT Hw Hc Hx Hx1 Hn1.
  unfold Caratheodory.sample_from_distribution. unfold bind at 1.
  rewrite rand_choices_runs by (auto; now apply outcome_in_range).
  destruct T as [|T0 T']; [congruence|].
  unfold bind at 1. cbn [lift Caratheodory.getitem nth_error].
  assert (HT0 : length T0 = n) by (now inversion HT).
  rewrite HT0.
  set (vectors := picked (T0 :: T') _).
  destruct (vec_sum_runs vectors (np_zeros n) (choice_advance w (Z.to_nat k)))
    as [Hrun Hlen].
  { unfold np_zeros. rewrite repeat_length.
    apply picked_lengths; [exact HT | now apply outcome_in_range]. }
  unfold bind at 1. rewrite Hrun.
  unfold bind at 1.
  rewrite broadcast_mismatch; [reflexivity | | exact Hx1 |];
    rewrite length_map, Hlen; unfold np_zeros; rewrite repeat_length;
    assumption.
Qed.

End IllFormed.

Lemma target_needs_every_coefficient_witness :
  Forall (fun p => length p = 3%nat) float_T /\
  (length [0.5; 0.5]%float < length float_T)%nat /\
  Caratheodory.x 3 float_T [0.5; 0.5]%float world0 = Raise IndexError.
Proof.
  split; [exact float_T_dimension|]. split; [cbn; lia|].
  apply (target_needs_every_coefficient 3 float_T [0.5; 0.5]%float world0
           float_T_dimension).
  cbn. lia.
Defined.

Lemma trial_rejects_other_dimension_witness :
  float_T <> [] /\
  Forall (fun p => length p = 3%nat) float_T /\
  length float_weights = length float_T /\
  (forall j, (choice demo_env j < length float_T)%nat) /\
  length [0.5; 0.5]%float <> 3%nat /\
  length [0.5; 0.5]%float <> 1%nat /\
  3%nat <> 1%nat /\
  Caratheodory.sample_from_distribution demo_env float_T float_weights
                                        [0.5; 0.5]%float 5 world0
  = Raise ValueError.
Proof.
  split; [exact float_T_nonempty|]. split; [exact float_T_dimension|].
  split; [reflexivity|]. split; [exact demo_env_choice|].
  split; [discriminate|]. split; [discriminate|]. split; [discriminate|].
  apply (trial_rejects_other_dimension demo_env 3 float_T float_weights
           [0.5; 0.5]%float 5 world0 float_T_nonempty float_T_dimension
           eq_refl demo_env_choice); discriminate.
Defined.

(** ** The set's order and the estimate *)

Section SetOrder.
Local Open Scope R_scope.

Lemma drawn_with_slot (env : Env R) (slot' : nat -> nat) w n dim name
      mean variance :
  drawn (with_slot env slot') w n dim name mean variance
  = drawn env w n dim name mean variance.
Proof. reflexivity. Qed.

(** Over the reals the estimate does not depend on where the [frozenset]
    keeps its members, that is, on the order in which the squared norms are
    added up. *)
Theorem estimate_ignores_set_order
        (env : Env R) (slot' : nat -> nat) (m dim : Z) (name : string)
        (mean variance : R) (w : World) :
  (0 < m)%Z -> (0 < dim)%Z -> recognized name = true ->
  exists r w',
    square_norm_expectation env m dim name mean variance w = Ok (r, w') /\
    square_norm_expectation (with_slot env slot') m dim name mean variance w
    = Ok (r, w').
Proof.
  intros Hm Hd Hn. do 2 eexists.
  split; [now apply square_norm_expectation_exact|].
  rewrite square_norm_expectation_exact by assumption.
  now rewrite drawn_with_slot.
Qed.

End SetOrder.

Lemma estimate_ignores_set_order_witness :
  (0 < 3)%Z /\ (0 < 2)%Z /\ recognized "standard_normal" = true /\
  exists r w',
    square_norm_expectation ramp_env 3 2 "standard_normal" 10%R 4%R world0
    = Ok (r, w') /\
    square_norm_expectation (with_slot ramp_env (fun a => (7 - a)%nat)) 3 2
                            "standard_normal" 10%R 4%R world0
    = Ok (r, w').
Proof.
  split; [lia|]. split; [lia|]. split; [reflexivity|].
  apply (estimate_ignores_set_order ramp_env (fun a => (7 - a)%nat) 3 2
           "standard_normal"%string 10%R 4%R world0);
    [lia | lia | reflexivity].
Defined.
